(** * Solana RPC connection manager: health classification, selection, retry

    A shallow embedding of [SolanaRpcManager] (the class of the library's
    single source module) and the properties of its health prober, connection
    selector and retrying executor.

    Modelling conventions.
    - JavaScript numbers that hold counts, slots and delays are integers [Z].
    - [Map<string, Connection[]>] is an insertion-ordered association list
      ([JsMap]): the refresh cycle iterates [entries()] in insertion order and
      consumes one network reply per endpoint, so the order is observable.
    - The methods mutate [this], write to the console, allocate objects and
      talk to the network.  They are functions in a state-and-exception monad
      [M] over a [World]; the network, [Math.random] and the file system are
      oracles of an environment [Env], indexed by how many times they have
      been consulted.
    - [Connection] is the client class of the web3 library; only its
      constructor, its [rpcEndpoint] field and [getSlot()] are used.  The
      constructor validates the address and throws a [TypeError] for one it
      does not accept; which addresses it accepts is an oracle of [Env].
    - A height probe is one call of [getCurrentBlock]; what [getSlot()]
      answers is an oracle of [Env] indexed by the number of the probe.
    - [Math.floor(Math.random() * n)] is computed in binary64; the product
      and its floor are an oracle of [Env] with the contract that the result
      is an index below [n].
    - [setInterval] replaces a period outside [1, 2^31 - 1] by 1.
    - Every method runs to completion before another one starts: the
      suspension points of [await] are not modelled. *)

From Stdlib Require Import ZArith QArith Qround Lia.
From stdpp Require Import base list strings option.

Local Open Scope Z_scope.

(** ** JavaScript [Map] with string keys, in insertion order *)

Module JsMap.

Definition t (V : Type) : Type := list (string * V).

Definition empty {V : Type} : t V := [].

(** [m.get(k)]: [None] stands for [undefined]. *)
Fixpoint get {V : Type} (k : string) (m : t V) : option V :=
  match m with
  | [] => None
  | (k', v) :: m' => if decide (k' = k) then Some v else get k m'
  end.

(** [m.set(k, v)]: an existing key keeps its position, a new key goes last. *)
Fixpoint set {V : Type} (k : string) (v : V) (m : t V) : t V :=
  match m with
  | [] => [(k, v)]
  | (k', v') :: m' =>
      if decide (k' = k) then (k, v) :: m' else (k', v') :: set k v m'
  end.

(** [m.entries()] *)
Definition entries {V : Type} (m : t V) : list (string * V) := m.

Definition keys {V : Type} (m : t V) : list string := m.*1.

End JsMap.

(** ** Data model *)

(** A [Connection] object: the endpoint address, the commitment given to the
    constructor (if any) and the identity of the object. *)
Record Connection : Type := mkConnection {
  rpcEndpoint : string;
  commitment : option string;
  oid : nat
}.

Record RpcManagerConfig : Type := mkConfig {
  defaultNetwork : string;
  officialRpcEndpoint : string;
  maxBlockDelay : Z;
  healthCheckIntervalMs : Z;
  defaultTimeoutMs : Z;
  defaultMaxRetries : Z;
  rpcHostsFilePath : option string;
  customRpcEndpoints : option (list string);
  logLevel : Z
}.

(** [Partial<RpcManagerConfig>]: an absent key is [None]. *)
Record PartialConfig : Type := mkPartial {
  p_defaultNetwork : option string;
  p_officialRpcEndpoint : option string;
  p_maxBlockDelay : option Z;
  p_healthCheckIntervalMs : option Z;
  p_defaultTimeoutMs : option Z;
  p_defaultMaxRetries : option Z;
  p_rpcHostsFilePath : option string;
  p_customRpcEndpoints : option (list string);
  p_logLevel : option Z
}.

Definition DEFAULT_CONFIG : RpcManagerConfig := {|
  defaultNetwork := "mainnet-beta";
  officialRpcEndpoint := "https://api.mainnet-beta.solana.com";
  maxBlockDelay := 30;
  healthCheckIntervalMs := 5 * 60 * 1000;
  defaultTimeoutMs := 30000;
  defaultMaxRetries := 5;
  rpcHostsFilePath := None;
  customRpcEndpoints := None;
  logLevel := 2
|}.

Definition no_overrides : PartialConfig :=
  mkPartial None None None None None None None None None.

(** [{ ...base, ...over }] *)
Definition spread (base : RpcManagerConfig) (over : PartialConfig)
  : RpcManagerConfig := {|
  defaultNetwork := default (defaultNetwork base) (p_defaultNetwork over);
  officialRpcEndpoint :=
    default (officialRpcEndpoint base) (p_officialRpcEndpoint over);
  maxBlockDelay := default (maxBlockDelay base) (p_maxBlockDelay over);
  healthCheckIntervalMs :=
    default (healthCheckIntervalMs base) (p_healthCheckIntervalMs over);
  defaultTimeoutMs := default (defaultTimeoutMs base) (p_defaultTimeoutMs over);
  defaultMaxRetries :=
    default (defaultMaxRetries base) (p_defaultMaxRetries over);
  rpcHostsFilePath :=
    match p_rpcHostsFilePath over with
    | Some p => Some p
    | None => rpcHostsFilePath base
    end;
  customRpcEndpoints :=
    match p_customRpcEndpoints over with
    | Some l => Some l
    | None => customRpcEndpoints base
    end;
  logLevel := default (logLevel base) (p_logLevel over)
|}.

(** The [Error] objects that occur, tagged by the place that creates them. *)
Inductive Error : Type :=
  | TypeError (what : string)            (* raised by the runtime *)
  | RpcError (endpoint : string)         (* [getSlot()] rejected *)
  | NoConnectionsError (network : string)
  | TimeoutError (timeoutMs : Z)
  | RetriesFailedError
  | CallerError (message : string)       (* an [Error] of the caller's operation *)
  | StringifiedError (text : string).    (* [new Error(String(error))] *)

(** The text given to [new Error] where the manager creates the object. *)
Definition manager_message (e : Error) : option string :=
  match e with
  | NoConnectionsError network =>
      Some ("No available RPC connections for network: " +:+ network)
  | RetriesFailedError => Some "RPC call failed after multiple retries"
  | _ => None
  end.

(** What the caller's operation can be rejected with: an [Error] instance, a
    value that converts to a string (kept as the string [String(value)]), or
    a value whose conversion by [String(value)] throws (an object without
    [toString], say). *)
Inductive Reason : Type :=
  | ReasonError (message : string)
  | ReasonValue (text : string)
  | ReasonNoString (what : string).

(** The outcome of [Promise.race([rpcMethod(connection), timeoutPromise])]. *)
Inductive Settled (T : Type) : Type :=
  | Fulfilled (result : T)
  | Rejected (reason : Reason)
  | TimedOut.
Arguments Fulfilled {T} result.
Arguments Rejected {T} reason.
Arguments TimedOut {T}.

(** A parsed JSON document (the members of an object are not looked at). *)
#[warnings="-register-all"] Inductive Json : Type :=
  | JNull
  | JBool (b : bool)
  | JNum (n : Z)
  | JStr (s : string)
  | JArr (items : list Json)
  | JObj.

(** What the hosts file path designates. *)
Inductive FileState : Type :=
  | NoSuchFile                 (* [fs.existsSync] is false *)
  | Unreadable                 (* [readFileSync] or [JSON.parse] throws *)
  | Parsed (document : Json).

(** The environment of the manager. *)
Record Env : Type := mkEnv {
  (** whether the constructor of [Connection] accepts the address *)
  accepts : string -> bool;
  (** the message of the [TypeError] it throws for one it does not accept *)
  rejection : string -> string;
  (** what [getSlot()] answers in the [k]-th height probe of the process (the
      [k]-th call of [getCurrentBlock]), on a connection to the endpoint
      given; [None]: the call rejects *)
  slot_reply : nat -> string -> option Z;
  (** value of the [k]-th [Math.random()] call *)
  random : nat -> Q;
  (** [Math.floor(r * n)] as the runtime computes it *)
  floor_product : Q -> nat -> Z;
  (** the file system, by path *)
  hostsFile : string -> FileState
}.

(** What the [k]-th height probe learns from
    [new Connection(endpoint).getSlot()]: the height, or [None] when the
    constructor throws or the call rejects. *)
Definition getSlot (env : Env) (k : nat) (endpoint : string) : option Z :=
  if accepts env endpoint then slot_reply env k endpoint else None.

(** [Math.random()] returns a number r in the interval [[0, 1)], and for
    such an r and an array length n the runtime's [Math.floor(r * n)] is an
    index of the array. *)
Definition random_contract (env : Env) : Prop :=
  (forall k : nat, (0 <= random env k)%Q /\ (random env k < 1)%Q) /\
  (forall (r : Q) (n : nat),
     (0 <= r)%Q -> (r < 1)%Q -> (0 < n)%nat ->
     0 <= floor_product env r n < Z.of_nat n).

(** The manager object together with the observable state around it. *)
Record World : Type := mkWorld {
  config : RpcManagerConfig;
  allConnections : JsMap.t (list Connection);
  healthyConnections : JsMap.t (list Connection);
  healthCheckInterval : option Z;  (* the armed timer, by its period in ms *)
  console : list (Z * string);     (* lines written by [log] *)
  objects : nat;                   (* [Connection] objects created so far *)
  slot_calls : nat;                (* height probes begun so far *)
  random_calls : nat;              (* [Math.random()] calls made so far *)
  rpc_calls : nat                  (* invocations of the caller's operation *)
}.

Definition with_allConnections (m : JsMap.t (list Connection)) (w : World) :=
  mkWorld (config w) m (healthyConnections w) (healthCheckInterval w)
          (console w) (objects w) (slot_calls w) (random_calls w) (rpc_calls w).
Definition with_healthyConnections (m : JsMap.t (list Connection)) (w : World) :=
  mkWorld (config w) (allConnections w) m (healthCheckInterval w)
          (console w) (objects w) (slot_calls w) (random_calls w) (rpc_calls w).
Definition with_healthCheckInterval (t : option Z) (w : World) :=
  mkWorld (config w) (allConnections w) (healthyConnections w) t
          (console w) (objects w) (slot_calls w) (random_calls w) (rpc_calls w).
Definition with_console (c : list (Z * string)) (w : World) :=
  mkWorld (config w) (allConnections w) (healthyConnections w)
          (healthCheckInterval w) c (objects w) (slot_calls w)
          (random_calls w) (rpc_calls w).
Definition with_objects (n : nat) (w : World) :=
  mkWorld (config w) (allConnections w) (healthyConnections w)
          (healthCheckInterval w) (console w) n (slot_calls w)
          (random_calls w) (rpc_calls w).
Definition with_slot_calls (n : nat) (w : World) :=
  mkWorld (config w) (allConnections w) (healthyConnections w)
          (healthCheckInterval w) (console w) (objects w) n
          (random_calls w) (rpc_calls w).
Definition with_random_calls (n : nat) (w : World) :=
  mkWorld (config w) (allConnections w) (healthyConnections w)
          (healthCheckInterval w) (console w) (objects w) (slot_calls w)
          n (rpc_calls w).
Definition with_rpc_calls (n : nat) (w : World) :=
  mkWorld (config w) (allConnections w) (healthyConnections w)
          (healthCheckInterval w) (console w) (objects w) (slot_calls w)
          (random_calls w) n.

(** ** The monad of methods *)

Inductive Res (A : Type) : Type :=
  | Ok (a : A)          (* the call returns *)
  | Throw (e : Error)   (* the call throws *)
  | OutOfFuel.          (* the loop bound of the model was too small *)
Arguments Ok {A} a.
Arguments Throw {A} e.
Arguments OutOfFuel {A}.

Definition M (A : Type) : Type := World -> Res A * World.

Definition ret {A : Type} (a : A) : M A := fun w => (Ok a, w).

Definition bind {A B : Type} (m : M A) (k : A -> M B) : M B :=
  fun w =>
    match m w with
    | (Ok a, w') => k a w'
    | (Throw e, w') => (Throw e, w')
    | (OutOfFuel, w') => (OutOfFuel, w')
    end.

Definition throw {A : Type} (e : Error) : M A := fun w => (Throw e, w).

(** [try { body } catch (error) { handler }] *)
Definition try_catch {A : Type} (body : M A) (handler : Error -> M A) : M A :=
  fun w =>
    match body w with
    | (Throw e, w') => handler e w'
    | r => r
    end.

Definition gets {A : Type} (f : World -> A) : M A := fun w => (Ok (f w), w).
Definition modify (f : World -> World) : M unit := fun w => (Ok tt, f w).

Declare Scope js_scope.
Delimit Scope js_scope with js.
Notation "x <- m ;; k" := (bind m (fun x => k))
  (at level 100, m at next level, right associativity) : js_scope.
Notation "m ;;; k" := (bind m (fun _ => k))
  (at level 100, right associativity) : js_scope.
Local Open Scope js_scope.

(** ** Runtime primitives *)

(** [arr[i]] for an integer [i]: [None] stands for [undefined]. *)
Definition js_index {A : Type} (arr : list A) (i : Z) : option A :=
  if i <? 0 then None else arr !! Z.to_nat i.

(** [x.rpcEndpoint]: a [TypeError] when [x] is [undefined]. *)
Definition rpcEndpoint_of (x : option Connection) : M string :=
  match x with
  | Some c => ret (rpcEndpoint c)
  | None => throw (TypeError "Cannot read properties of undefined")
  end.

(** A JavaScript [Set] of strings, in insertion order. *)
Definition set_add (x : string) (s : list string) : list string :=
  if decide (x ∈ s) then s else s ++ [x].

(** ** The manager *)

Section Manager.

Variable env : Env.

(** [log(level, message, additional?)]: the line is recorded with its level
    and its text (placeholders of template strings are kept as written; the
    [additional] value is printed on further lines, not recorded). *)
Definition log (level : Z) (message : string) : M unit :=
  fun w =>
    if level <=? logLevel (config w)
    then (Ok tt, with_console (console w ++ [(level, message)]) w)
    else (Ok tt, w).

(** [new Connection(endpoint, commitment)]: the constructor throws a
    [TypeError] for an address it does not accept. *)
Definition newConnection (endpoint : string) (cm : option string)
  : M Connection :=
  fun w =>
    if accepts env endpoint
    then (Ok (mkConnection endpoint cm (objects w)),
          with_objects (S (objects w)) w)
    else (Throw (TypeError (rejection env endpoint)), w).

(** The environment numbers the height probes. *)
Definition next_probe : M nat :=
  fun w => (Ok (slot_calls w), with_slot_calls (S (slot_calls w)) w).

(** [await connection.getSlot()], in height probe number [probe] *)
Definition getSlot_call (probe : nat) (connection : Connection) : M Z :=
  match slot_reply env probe (rpcEndpoint connection) with
  | Some block => ret block
  | None => throw (RpcError (rpcEndpoint connection))
  end.

(** [Math.random()] *)
Definition Math_random : M Q :=
  fun w => (Ok (random env (random_calls w)),
            with_random_calls (S (random_calls w)) w).

(** [constructor(config = {})] *)
Definition constructor (overrides : PartialConfig) : World :=
  let cfg := spread DEFAULT_CONFIG overrides in
  let w0 := {|
    config := cfg;
    allConnections := JsMap.set (defaultNetwork cfg) [] JsMap.empty;
    healthyConnections := JsMap.set (defaultNetwork cfg) [] JsMap.empty;
    healthCheckInterval := None;
    console := [];
    objects := 0;
    slot_calls := 0;
    random_calls := 0;
    rpc_calls := 0
  |} in
  snd (log 3 "SolanaRpcManager initialized with config:" w0).

(** [getCurrentBlock(rpcEndpoint)]: the height, or [None] for [null]. *)
Definition getCurrentBlock (endpoint : string) : M (option Z) :=
  probe <- next_probe ;;
  try_catch
    (connection <- newConnection endpoint None ;;
     block <- getSlot_call probe connection ;;
     ret (Some block))
    (fun error =>
       log 2 "Failed to fetch block for ${rpcEndpoint}:" ;;;
       ret None).

(** The inner loop of [updateHealthyConnections]:
    [for (const connection of connections) { ... }]. *)
Fixpoint check_connections (officialBlock : Z) (connections : list Connection)
    (healthyEndpoints : list Connection) : M (list Connection) :=
  match connections with
  | [] => ret healthyEndpoints
  | connection :: rest =>
      let endpoint := rpcEndpoint connection in
      currentBlock <- getCurrentBlock endpoint ;;
      cfg <- gets config ;;
      match currentBlock with
      | Some block =>
          if officialBlock - block <=? maxBlockDelay cfg then
            log 4 "Healthy endpoint: ${rpcEndpoint}, block: ${currentBlock}" ;;;
            check_connections officialBlock rest
              (healthyEndpoints ++ [connection])
          else
            log 2 "Unhealthy endpoint: ${rpcEndpoint}, block: ${currentBlock}" ;;;
            check_connections officialBlock rest healthyEndpoints
      | None =>
          log 2 "Unhealthy endpoint: ${rpcEndpoint}, block: ${currentBlock}" ;;;
          check_connections officialBlock rest healthyEndpoints
      end
  end.

(** The outer loop:
    [for (const [network, connections] of this.allConnections.entries())]. *)
Fixpoint check_networks (officialBlock : Z)
    (entries : list (string * list Connection)) : M unit :=
  match entries with
  | [] => ret tt
  | (network, connections) :: rest =>
      healthyEndpoints <- check_connections officialBlock connections [] ;;
      modify (fun w =>
        with_healthyConnections
          (JsMap.set network healthyEndpoints (healthyConnections w)) w) ;;;
      log 3 "Updated healthy connections for ${network}: ${healthyEndpoints.length}/${connections.length}" ;;;
      check_networks officialBlock rest
  end.

(** [updateHealthyConnections()].  [!officialBlock] holds for [null] and
    for the number [0]. *)
Definition updateHealthyConnections : M unit :=
  log 3 "Updating healthy connections..." ;;;
  try_catch
    (cfg <- gets config ;;
     officialBlock <- getCurrentBlock (officialRpcEndpoint cfg) ;;
     match officialBlock with
     | None | Some 0 =>
         log 2 "Failed to fetch block from official endpoint, skipping health check"
     | Some block =>
         log 4 "Official block: ${officialBlock}" ;;;
         all <- gets allConnections ;;
         check_networks block (JsMap.entries all)
     end)
    (fun error => log 1 "Failed to update healthy connections:").

(** [host.startsWith('http') ? host : `http://${host}`] *)
Definition normalize_host (host : string) : string :=
  if String.prefix "http" host then host else "http://" +:+ host.

(** [hostsFromFile.forEach(host => { ... })]: an entry that is not a string
    has no [startsWith] method. *)
Fixpoint add_hosts (hosts : list Json) (endpoints : list string)
  : Res unit * list string :=
  match hosts with
  | [] => (Ok tt, endpoints)
  | JStr host :: rest =>
      let endpoint := normalize_host host in
      add_hosts rest (set_add endpoint endpoints)
  | _ :: _ => (Throw (TypeError "host.startsWith is not a function"), endpoints)
  end.

(** [loadRpcEndpoints()] *)
Definition loadRpcEndpoints : M (list string) :=
  cfg <- gets config ;;
  let endpoints : list string := [] in
  endpoints <-
    match customRpcEndpoints cfg with
    | Some custom =>
        if (0 <? length custom)%nat then
          log 3 "Added ${this.config.customRpcEndpoints.length} custom endpoints" ;;;
          ret (foldl (fun s endpoint => set_add endpoint s) endpoints custom)
        else ret endpoints
    | None => ret endpoints
    end ;;
  endpoints <-
    match rpcHostsFilePath cfg with
    | None | Some "" => ret endpoints
    | Some path =>
        match hostsFile env path with
        | NoSuchFile =>
            log 2 "RPC hosts file not found at ${this.config.rpcHostsFilePath}" ;;;
            ret endpoints
        | Unreadable =>
            log 1 "Failed to load endpoints from file:" ;;;
            ret endpoints
        | Parsed (JArr hostsFromFile) =>
            match add_hosts hostsFromFile endpoints with
            | (Ok _, endpoints') =>
                log 3 "Loaded ${hostsFromFile.length} endpoints from file" ;;;
                ret endpoints'
            | (_, endpoints') =>
                log 1 "Failed to load endpoints from file:" ;;;
                ret endpoints'
            end
        | Parsed _ =>
            (* [hostsFromFile.forEach] is not a function *)
            log 1 "Failed to load endpoints from file:" ;;;
            ret endpoints
        end
    end ;;
  ret (set_add (officialRpcEndpoint cfg) endpoints).

(** The period [setInterval(callback, delay)] arms its timer with: a delay
    below 1 or above 2^31 - 1 is replaced by 1. *)
Definition timer_period (delay : Z) : Z :=
  if (1 <=? delay) && (delay <=? 2147483647) then delay else 1.

(** [startHealthCheck()]: a timer that is already armed is cleared before
    the new one replaces it. *)
Definition startHealthCheck : M unit :=
  cfg <- gets config ;;
  modify (with_healthCheckInterval
            (Some (timer_period (healthCheckIntervalMs cfg)))) ;;;
  log 3 "Health check interval started with ${this.config.healthCheckIntervalMs}ms interval".

(** [stopHealthCheck()] *)
Definition stopHealthCheck : M unit :=
  timer <- gets healthCheckInterval ;;
  match timer with
  | Some _ =>
      modify (with_healthCheckInterval None) ;;;
      log 3 "Health check interval stopped"
  | None => ret tt
  end.

(** [dispose()] *)
Definition dispose : M unit :=
  stopHealthCheck ;;;
  log 3 "RPC Manager disposed".

(** [endpoints.map(endpoint => new Connection(endpoint, 'confirmed'))] *)
Fixpoint connect_all (endpoints : list string) : M (list Connection) :=
  match endpoints with
  | [] => ret []
  | endpoint :: rest =>
      connection <- newConnection endpoint (Some "confirmed") ;;
      connections <- connect_all rest ;;
      ret (connection :: connections)
  end.

(** [initialize()] *)
Definition initialize : M unit :=
  log 3 "Initializing RPC connections..." ;;;
  try_catch
    (cfg <- gets config ;;
     endpoints <- loadRpcEndpoints ;;
     endpoints <-
       (if (length endpoints =? 0)%nat then
          log 2 "No RPC endpoints found. Using official endpoint as fallback." ;;;
          ret (endpoints ++ [officialRpcEndpoint cfg])
        else ret endpoints) ;;
     connections <- connect_all endpoints ;;
     modify (fun w =>
       with_allConnections
         (JsMap.set (defaultNetwork cfg) connections (allConnections w)) w) ;;;
     log 3 "Initialized ${connections.length} connections for ${this.config.defaultNetwork}" ;;;
     updateHealthyConnections ;;;
     startHealthCheck)
    (fun error =>
       log 1 "Failed to initialize connections:" ;;;
       throw error).

(** [getConnection(network = this.config.defaultNetwork)]: the result has
    type [Connection | null]; [None] stands for a value that is not an
    object. *)
Definition getConnection (network : option string) : M (option Connection) :=
  cfg <- gets config ;;
  let network := default (defaultNetwork cfg) network in
  healthy <- gets healthyConnections ;;
  let connections := default [] (JsMap.get network healthy) in
  if (length connections =? 0)%nat then
    log 2 "No healthy connections available for ${network}" ;;;
    all <- gets allConnections ;;
    let allNetworkConnections := default [] (JsMap.get network all) in
    if (0 <? length allNetworkConnections)%nat then
      r <- Math_random ;;
      let randomIndex := floor_product env r (length allNetworkConnections) in
      let fallbackConnection := js_index allNetworkConnections randomIndex in
      _ <- rpcEndpoint_of fallbackConnection ;;
      log 2 "Falling back to potentially unhealthy connection: ${fallbackConnection.rpcEndpoint}" ;;;
      ret fallbackConnection
    else
      log 2 "Falling back to official endpoint: ${this.config.officialRpcEndpoint}" ;;;
      connection <- newConnection (officialRpcEndpoint cfg) None ;;
      ret (Some connection)
  else
    r <- Math_random ;;
    let randomIndex := floor_product env r (length connections) in
    let connection := js_index connections randomIndex in
    _ <- rpcEndpoint_of connection ;;
    log 4 "Selected connection: ${connection.rpcEndpoint}" ;;;
    ret connection.

(** The [options] argument of [executeWithRetry]. *)
Record RetryOptions : Type := mkOptions {
  o_network : option string;
  o_maxRetries : option Z;
  o_timeoutMs : option Z;
  o_forceHealthCheck : option bool
}.

(** [error instanceof Error ? error : new Error(String(error))]: the
    conversion [String(error)] can throw. *)
Definition to_Error (reason : Reason) : M Error :=
  match reason with
  | ReasonError message => ret (CallerError message)
  | ReasonValue text => ret (StringifiedError text)
  | ReasonNoString what => throw (TypeError what)
  end.

Section Retry.

Context {T : Type}.

(** The caller's operation: what the race of its [k]-th invocation, made
    on the connection given, against the timeout settles to. *)
Variable rpcMethod : nat -> Connection -> Settled T.

(** [await Promise.race([rpcMethod(connection), timeoutPromise])] *)
Definition race (connection : Connection) : M (Settled T) :=
  fun w => (Ok (rpcMethod (rpc_calls w) connection),
            with_rpc_calls (S (rpc_calls w)) w).

(** [while (attempt < maxRetries) { ... }] and the statements after it.
    Every iteration that does not leave the function increments
    [attempt]; [fuel] bounds the number of iterations. *)
Fixpoint retry_loop (fuel : nat) (network : string)
    (maxRetries timeoutMs : Z) (attempt : Z) (lastError : option Error)
  : M T :=
  if attempt <? maxRetries then
    match fuel with
    | O => fun w => (OutOfFuel, w)
    | S fuel' =>
        connection <- getConnection (Some network) ;;
        match connection with
        | None => throw (NoConnectionsError network)
        | Some connection =>
            settled <- race connection ;;
            match settled with
            | Fulfilled result => ret result
            | Rejected reason =>
                lastError <- to_Error reason ;;
                log 2 "RPC call failed (attempt ${attempt + 1}/${maxRetries}): ${connection.rpcEndpoint}" ;;;
                retry_loop fuel' network maxRetries timeoutMs
                  (attempt + 1) (Some lastError)
            | TimedOut =>
                let lastError := TimeoutError timeoutMs in
                log 2 "RPC call failed (attempt ${attempt + 1}/${maxRetries}): ${connection.rpcEndpoint}" ;;;
                retry_loop fuel' network maxRetries timeoutMs
                  (attempt + 1) (Some lastError)
            end
        end
    end
  else
    log 1 "All RPC retries failed" ;;;
    throw (default RetriesFailedError lastError).

(** [executeWithRetry(rpcMethod, options = {})] *)
Definition executeWithRetry (options : RetryOptions) : M T :=
  cfg <- gets config ;;
  let network := default (defaultNetwork cfg) (o_network options) in
  let maxRetries := default (defaultMaxRetries cfg) (o_maxRetries options) in
  let timeoutMs := default (defaultTimeoutMs cfg) (o_timeoutMs options) in
  let forceHealthCheck := default false (o_forceHealthCheck options) in
  (if forceHealthCheck then updateHealthyConnections else ret tt) ;;;
  retry_loop (Z.to_nat maxRetries) network maxRetries timeoutMs 0 None.

End Retry.

(** The object [getStats()] returns: three plain objects keyed by network. *)
Record Stats : Type := mkStats {
  totalConnections : JsMap.t nat;
  healthyCounts : JsMap.t nat;        (* the member [healthyConnections] *)
  healthyEndpoints : JsMap.t (list string)
}.

(** [obj[key] = value] on a plain object, seen through the object's own
    properties: the key [__proto__] reaches the prototype setter and creates
    no property. *)
Definition obj_set {V : Type} (key : string) (value : V) (obj : JsMap.t V)
  : JsMap.t V :=
  if decide (key = "__proto__") then obj else JsMap.set key value obj.

(** The loop of [getStats]:
    [for (const [network, connections] of this.allConnections.entries())]. *)
Fixpoint collect_stats (healthy : JsMap.t (list Connection))
    (entries : list (string * list Connection)) (stats : Stats) : Stats :=
  match entries with
  | [] => stats
  | (network, connections) :: rest =>
      let healthyConnections := default [] (JsMap.get network healthy) in
      collect_stats healthy rest {|
        totalConnections :=
          obj_set network (length connections) (totalConnections stats);
        healthyCounts :=
          obj_set network (length healthyConnections) (healthyCounts stats);
        healthyEndpoints :=
          obj_set network (rpcEndpoint <$> healthyConnections)
                  (healthyEndpoints stats)
      |}
  end.

(** [getStats()] *)
Definition getStats : M Stats :=
  all <- gets allConnections ;;
  healthy <- gets healthyConnections ;;
  ret (collect_stats healthy (JsMap.entries all)
         (mkStats JsMap.empty JsMap.empty JsMap.empty)).

(** [createRpcManager(config = {})] *)
Definition createRpcManager (overrides : PartialConfig) : Res unit * World :=
  initialize (constructor overrides).

End Manager.

(** ** Definitions used to state the properties *)

(** The world after [log level message]. *)
Definition logged (level : Z) (message : string) (w : World) : World :=
  if level <=? logLevel (config w)
  then with_console (console w ++ [(level, message)]) w
  else w.

(** [w'] differs from [w] at most outside the manager's configuration and its
    two pools. *)
Definition same_pools (w w' : World) : Prop :=
  config w' = config w /\
  allConnections w' = allConnections w /\
  healthyConnections w' = healthyConnections w.

(** [w'] differs from [w] in the console only. *)
Definition console_only (w w' : World) : Prop :=
  same_pools w w' /\
  healthCheckInterval w' = healthCheckInterval w /\
  objects w' = objects w /\
  slot_calls w' = slot_calls w /\
  random_calls w' = random_calls w /\
  rpc_calls w' = rpc_calls w.

(** The healthy list of a network, or the empty list when the network has no
    entry ([healthyConnections.get(network) || []]). *)
Definition healthy_of (network : string) (w : World) : list Connection :=
  default [] (JsMap.get network (healthyConnections w)).

Definition all_of (network : string) (w : World) : list Connection :=
  default [] (JsMap.get network (allConnections w)).

(** Health of one endpoint as the specification words it: the height query
    succeeded and the endpoint is at most [maxDelay] behind the reference. *)
Definition within_delay (officialHeight maxDelay : Z) (reply : option Z)
  : Prop :=
  exists h : Z, reply = Some h /\ officialHeight - h <= maxDelay.

#[global] Instance within_delay_dec (officialHeight maxDelay : Z)
  (reply : option Z) : Decision (within_delay officialHeight maxDelay reply).
Proof.
  destruct reply as [h|].
  - destruct (decide (officialHeight - h <= maxDelay)) as [Hle|Hgt].
    + left. exists h. split; [reflexivity | exact Hle].
    + right. intros (h' & Heq & Hle). inversion Heq; subst. contradiction.
  - right. intros (h' & Heq & _). discriminate.
Defined.

(** The endpoints of [connections] paired with what their own height
    probes learn, the first of which is probe number [start]. *)
Definition probes (env : Env) (start : nat) (connections : list Connection)
  : list (Connection * option Z) :=
  imap (fun i c => (c, getSlot env (start + i) (rpcEndpoint c))) connections.

(** The order-preserving filter of [connections] that keeps the healthy
    endpoints. *)
Definition healthy_subset (env : Env) (officialHeight maxDelay : Z)
    (start : nat) (connections : list Connection) : list Connection :=
  (filter (fun p => within_delay officialHeight maxDelay p.2)
          (probes env start connections)).*1.

(** The healthy pool after the outer loop of a refresh cycle has gone through
    [entries], the first height probe being number [start]. *)
Fixpoint refreshed (env : Env) (officialHeight maxDelay : Z) (start : nat)
    (entries : list (string * list Connection))
    (healthy : JsMap.t (list Connection)) : JsMap.t (list Connection) :=
  match entries with
  | [] => healthy
  | (network, connections) :: rest =>
      refreshed env officialHeight maxDelay (start + length connections) rest
        (JsMap.set network
           (healthy_subset env officialHeight maxDelay start connections)
           healthy)
  end.

(** The failure an attempt records, if it fails with an [Error], with a value
    that converts to a string, or by timing out. *)
Definition failure_of {T : Type} (timeoutMs : Z) (settled : Settled T)
  : option Error :=
  match settled with
  | Rejected (ReasonError message) => Some (CallerError message)
  | Rejected (ReasonValue text) => Some (StringifiedError text)
  | TimedOut => Some (TimeoutError timeoutMs)
  | Fulfilled _ | Rejected (ReasonNoString _) => None
  end.

(** An attempt fails, and its failure is recorded, when it is rejected with
    an [Error] or with a value that converts to a string, or timed out. *)
Definition is_failure {T : Type} (settled : Settled T) : Prop :=
  match settled with
  | Rejected (ReasonError _) | Rejected (ReasonValue _) | TimedOut => True
  | Fulfilled _ | Rejected (ReasonNoString _) => False
  end.

(** How an attempt that records no failure ends the call: a fulfilled
    operation returns its result, and a rejection with a value that has no
    string conversion throws the [TypeError] of the conversion. *)
Definition ending_of {T : Type} (settled : Settled T) : option (Res T) :=
  match settled with
  | Fulfilled result => Some (Ok result)
  | Rejected (ReasonNoString what) => Some (Throw (TypeError what))
  | Rejected (ReasonError _) | Rejected (ReasonValue _) | TimedOut => None
  end.

(** The connections [getConnection] can hand out for a network: a healthy
    one, a configured one, or a new connection to the reference endpoint. *)
Definition candidate (network : string) (w : World) (c : Connection) : Prop :=
  c ∈ healthy_of network w \/
  c ∈ all_of network w \/
  (rpcEndpoint c = officialRpcEndpoint (config w) /\ commitment c = None).

(** [getConnection] has something to hand out for the network: a healthy or
    configured endpoint, or a reference address the constructor accepts. *)
Definition selectable (env : Env) (network : string) (w : World) : Prop :=
  healthy_of network w <> [] \/
  all_of network w <> [] \/
  accepts env (officialRpcEndpoint (config w)) = true.

(** The endpoint list [loadRpcEndpoints] computes from the configuration and
    the file system, without the console output. *)
Definition loaded_endpoints (env : Env) (cfg : RpcManagerConfig)
  : list string :=
  let custom :=
    match customRpcEndpoints cfg with
    | Some custom => foldl (fun s endpoint => set_add endpoint s) [] custom
    | None => []
    end in
  let merged :=
    match rpcHostsFilePath cfg with
    | None => custom
    | Some path =>
        if decide (path = "") then custom
        else match hostsFile env path with
             | Parsed (JArr hostsFromFile) => snd (add_hosts hostsFromFile custom)
             | _ => custom
             end
    end in
  set_add (officialRpcEndpoint cfg) merged.

(** The first address of the list the constructor of [Connection] does not
    accept, if there is one. *)
Fixpoint first_rejected (env : Env) (endpoints : list string)
  : option string :=
  match endpoints with
  | [] => None
  | endpoint :: rest =>
      if accepts env endpoint then first_rejected env rest else Some endpoint
  end.

(** The state in which the attempts of [executeWithRetry] start: the one
    after the refresh cycle, when [forceHealthCheck] asks for one. *)
Definition attempts_start (env : Env) (options : RetryOptions) (w : World)
  : World :=
  if default false (o_forceHealthCheck options)
  then snd (updateHealthyConnections env w) else w.

(** The calls a client, or the timer, can make on a manager. *)
Inductive Call : Type :=
  | CallInitialize
  | CallUpdateHealthyConnections
  | CallGetConnection (network : option string)
  | CallExecuteWithRetry {T : Type} (rpcMethod : nat -> Connection -> Settled T)
      (options : RetryOptions)
  | CallStopHealthCheck
  | CallDispose.

Definition run_call (env : Env) (call : Call) (w : World) : World :=
  match call with
  | CallInitialize => snd (initialize env w)
  | CallUpdateHealthyConnections => snd (updateHealthyConnections env w)
  | CallGetConnection network => snd (getConnection env network w)
  | CallExecuteWithRetry rpcMethod options =>
      snd (executeWithRetry env rpcMethod options w)
  | CallStopHealthCheck => snd (stopHealthCheck w)
  | CallDispose => snd (dispose w)
  end.

(** The states a manager goes through: it is constructed, and then any
    sequence of calls is made on it.  What the network, the random source and
    the file system answer along the way is fixed by [env]; the hosts file in
    particular reads the same every time. *)
Inductive reachable (env : Env) : World -> Prop :=
  | reachable_new (overrides : PartialConfig) :
      reachable env (constructor overrides)
  | reachable_call (call : Call) (w : World) :
      reachable env w -> reachable env (run_call env call w).

(** The addresses of a list of connections. *)
Definition addresses (connections : list Connection) : list string :=
  rpcEndpoint <$> connections.

(** The shape of the pools in every state a manager goes through: one entry,
    for the default network, in each map; the healthy addresses among the
    configured ones; the configured addresses either not yet loaded or the
    loaded endpoint list. *)
Definition pool_invariant (env : Env) (w : World) : Prop :=
  exists connections healthy : list Connection,
    allConnections w = [(defaultNetwork (config w), connections)] /\
    healthyConnections w = [(defaultNetwork (config w), healthy)] /\
    addresses healthy ⊆ addresses connections /\
    (connections = [] \/
     addresses connections = loaded_endpoints env (config w)).

(** No address occurs twice in the healthy list of the default network. *)
Definition healthy_distinct (w : World) : Prop :=
  NoDup (addresses (healthy_of (defaultNetwork (config w)) w)).

(** The number of height probes a refresh cycle spends on [entries]. *)
Definition queries_for (entries : list (string * list Connection)) : nat :=
  sum_list ((fun entry => length entry.2) <$> entries).

(** ** Scenarios *)

Definition mainnet : string := "mainnet-beta".
Definition official : string := "https://api.mainnet-beta.solana.com".

(** The addresses the constructor of the client library takes: those that
    start with [http:] or [https:]. *)
Definition starts_with_scheme (endpoint : string) : bool :=
  String.prefix "http:" endpoint || String.prefix "https:" endpoint.

(** What it says of the others. *)
Definition scheme_message (endpoint : string) : string :=
  "Endpoint URL must start with `http:` or `https:`.".

(** The floor of the exact product; it is what the runtime computes for the
    random values 0 and 1/2 the scenarios draw. *)
Definition exact_floor (r : Q) (n : nat) : Z :=
  Qfloor (r * inject_Z (Z.of_nat n)).

(** A freshly started cluster: every endpoint reports height 0. *)
Definition env_genesis : Env :=
  mkEnv starts_with_scheme scheme_message (fun _ _ => Some 0) (fun _ => 0%Q) exact_floor
        (fun _ => NoSuchFile).

(** No endpoint answers. *)
Definition env_down : Env :=
  mkEnv starts_with_scheme scheme_message (fun _ _ => None) (fun _ => 0%Q) exact_floor
        (fun _ => NoSuchFile).

(** The reference endpoint is at height 100, [https://a.example] at 70,
    [https://b.example] at 69, nothing else answers; the hosts file lists one
    host whose name begins with the letters http. *)
Definition env_live : Env :=
  mkEnv starts_with_scheme scheme_message
    (fun _ endpoint =>
       if decide (endpoint = official) then Some 100
       else if decide (endpoint = "https://a.example") then Some 70
       else if decide (endpoint = "https://b.example") then Some 69
       else None)
    (fun _ => (1 # 2)%Q)
    exact_floor
    (fun path =>
       if decide (path = "./rpcHosts.json")
       then Parsed (JArr [JStr "httpbin.org:8899"; JStr "10.0.0.7:8899"])
       else NoSuchFile).

Definition overrides_live : PartialConfig :=
  mkPartial None None None None None None (Some "./rpcHosts.json")
    (Some ["https://a.example"; "https://b.example"; "https://c.example"])
    None.

(** The custom endpoints of [overrides_live], without a hosts file. *)
Definition overrides_custom : PartialConfig :=
  mkPartial None None None None None None None
    (Some ["https://a.example"; "https://b.example"; "https://c.example"])
    None.

(** A reference address without a scheme. *)
Definition overrides_no_scheme : PartialConfig :=
  mkPartial None (Some "localhost:8899") None None None None None None None.

(** A manager with three configured endpoints, two of them healthy. *)
Definition world_two_healthy : World := {|
  config := DEFAULT_CONFIG;
  allConnections :=
    [(mainnet, [mkConnection official (Some "confirmed") 0;
                mkConnection "https://a.example" (Some "confirmed") 1;
                mkConnection "https://b.example" (Some "confirmed") 2])];
  healthyConnections :=
    [(mainnet, [mkConnection official (Some "confirmed") 0;
                mkConnection "https://a.example" (Some "confirmed") 1])];
  healthCheckInterval := Some 300000;
  console := [];
  objects := 3;
  slot_calls := 4;
  random_calls := 0;
  rpc_calls := 0
|}.

(** The same manager after a refresh cycle that found no endpoint healthy. *)
Definition world_none_healthy : World := {|
  config := DEFAULT_CONFIG;
  allConnections :=
    [(mainnet, [mkConnection official (Some "confirmed") 0;
                mkConnection "https://a.example" (Some "confirmed") 1;
                mkConnection "https://b.example" (Some "confirmed") 2])];
  healthyConnections := [(mainnet, [])];
  healthCheckInterval := Some 300000;
  console := [];
  objects := 7;
  slot_calls := 8;
  random_calls := 0;
  rpc_calls := 0
|}.

(** An operation that never settles in time. *)
Definition always_times_out : nat -> Connection -> Settled Z :=
  fun _ _ => TimedOut.

(** An operation that is rejected on its first invocation and answers 42
    from the second one on. *)
Definition fails_once : nat -> Connection -> Settled Z :=
  fun k _ =>
    match k with
    | O => Rejected (ReasonError "429 Too Many Requests")
    | S _ => Fulfilled 42
    end.

(** An operation that is rejected on its first invocation with an object
    that has no string conversion, and answers 42 from the second one on. *)
Definition fails_once_unprintable : nat -> Connection -> Settled Z :=
  fun k _ =>
    match k with
    | O => Rejected (ReasonNoString "Cannot convert object to primitive value")
    | S _ => Fulfilled 42
    end.

(** An operation that is always rejected with such an object. *)
Definition always_unprintable : nat -> Connection -> Settled Z :=
  fun _ _ => Rejected (ReasonNoString "Cannot convert object to primitive value").

Definition three_retries : RetryOptions :=
  mkOptions None (Some 3) (Some 5000) None.

Definition zero_retries : RetryOptions :=
  mkOptions None (Some 0) None (Some true).

(** A hosts file whose second entry is a number. *)
Definition env_bad_file : Env :=
  mkEnv starts_with_scheme scheme_message (fun _ _ => None) (fun _ => 0%Q) exact_floor
    (fun _ => Parsed (JArr [JStr "10.0.0.7:8899"; JNum 8899;
                            JStr "10.0.0.8:8899"])).

(** ** Lemmas on maps *)

Lemma JsMap_get_set_eq {V : Type} (k : string) (v : V) (m : JsMap.t V) :
  JsMap.get k (JsMap.set k v m) = Some v.
Proof.
  induction m as [|[k' v'] m IH]; simpl.
  - rewrite decide_True; reflexivity.
  - destruct (decide (k' = k)) as [->|Hne]; simpl.
    + rewrite decide_True; reflexivity.
    + rewrite decide_False; assumption.
Qed.

Lemma JsMap_get_set_ne {V : Type} (k k0 : string) (v : V) (m : JsMap.t V) :
  k <> k0 -> JsMap.get k0 (JsMap.set k v m) = JsMap.get k0 m.
Proof.
  intros Hne. induction m as [|[k' v'] m IH]; simpl.
  - rewrite decide_False; [reflexivity | assumption].
  - destruct (decide (k' = k)) as [->|Hne']; simpl.
    + rewrite !decide_False; [reflexivity | assumption | assumption].
    + destruct (decide (k' = k0)); [reflexivity | exact IH].
Qed.

(** Worlds that differ by console lines and counters have the same pools. *)
Lemma same_pools_refl (w : World) : same_pools w w.
Proof. unfold same_pools; auto. Qed.

Lemma same_pools_trans (w1 w2 w3 : World) :
  same_pools w1 w2 -> same_pools w2 w3 -> same_pools w1 w3.
Proof.
  unfold same_pools. intros (?&?&?) (?&?&?). repeat split; congruence.
Qed.

Lemma logged_same_pools (level : Z) (message : string) (w : World) :
  same_pools w (logged level message w).
Proof.
  unfold same_pools, logged.
  destruct (level <=? logLevel (config w)); simpl; auto.
Qed.

Ltac pools :=
  repeat match goal with
    | |- same_pools ?w ?w => apply same_pools_refl
    | |- same_pools ?w (logged _ _ ?x) =>
        apply (same_pools_trans w x); [|apply logged_same_pools]
    | |- same_pools ?w (with_random_calls _ ?x) =>
        apply (same_pools_trans w x); [|unfold same_pools; simpl; auto]
    | |- same_pools ?w (with_rpc_calls _ ?x) =>
        apply (same_pools_trans w x); [|unfold same_pools; simpl; auto]
    | |- same_pools ?w (with_objects _ ?x) =>
        apply (same_pools_trans w x); [|unfold same_pools; simpl; auto]
    end.

(** ** Lemmas on the primitives *)

Section Primitives.

Variable env : Env.

Lemma log_run (level : Z) (message : string) (w : World) :
  log level message w = (Ok tt, logged level message w).
Proof. unfold log, logged. destruct (level <=? logLevel (config w)); reflexivity. Qed.

Lemma logged_counters (level : Z) (message : string) (w : World) :
  slot_calls (logged level message w) = slot_calls w /\
  random_calls (logged level message w) = random_calls w /\
  rpc_calls (logged level message w) = rpc_calls w /\
  objects (logged level message w) = objects w /\
  healthCheckInterval (logged level message w) = healthCheckInterval w.
Proof.
  unfold logged. destruct (level <=? logLevel (config w)); simpl; auto.
Qed.

(** [getCurrentBlock] returns what the next height probe learns, and never
    throws; it creates a connection object when the constructor accepts the
    address. *)
Lemma getCurrentBlock_run (endpoint : string) (w : World) :
  exists w' : World,
    getCurrentBlock env endpoint w
      = (Ok (getSlot env (slot_calls w) endpoint), w') /\
    same_pools w w' /\
    slot_calls w' = S (slot_calls w) /\
    random_calls w' = random_calls w /\
    rpc_calls w' = rpc_calls w.
Proof.
  unfold getCurrentBlock, bind at 1, next_probe.
  unfold try_catch, bind at 1, newConnection, getSlot. simpl.
  destruct (accepts env endpoint); simpl.
  - unfold bind, getSlot_call. simpl.
    destruct (slot_reply env (slot_calls w) endpoint) as [h|]; simpl.
    + unfold ret. eexists; split; [reflexivity|]. unfold same_pools; simpl; auto.
    + unfold throw, bind. rewrite log_run. eexists; split; [reflexivity|].
      match goal with |- context [logged ?l ?m ?x] =>
        pose proof (logged_same_pools l m x) as Hp;
        pose proof (logged_counters l m x) as (Hs & Hr & Hc & _)
      end.
      split; [exact Hp|]. rewrite Hs, Hr, Hc. simpl; auto.
  - unfold bind. rewrite log_run. eexists; split; [reflexivity|].
    match goal with |- context [logged ?l ?m ?x] =>
      pose proof (logged_same_pools l m x) as Hp;
      pose proof (logged_counters l m x) as (Hs & Hr & Hc & _)
    end.
    split; [exact Hp|]. rewrite Hs, Hr, Hc. simpl; auto.
Qed.

End Primitives.

(** ** The refresh cycle *)

Section Refresh.

Variable env : Env.

Lemma healthy_subset_nil (H d : Z) (start : nat) :
  healthy_subset env H d start [] = [].
Proof. reflexivity. Qed.

Lemma healthy_subset_cons (H d : Z) (start : nat) (c : Connection)
    (cs : list Connection) :
  healthy_subset env H d start (c :: cs) =
    if decide (within_delay H d (getSlot env start (rpcEndpoint c)))
    then c :: healthy_subset env H d (S start) cs
    else healthy_subset env H d (S start) cs.
Proof.
  unfold healthy_subset, probes. rewrite imap_cons, filter_cons. simpl.
  rewrite Nat.add_0_r.
  assert (Hext : imap ((fun i c0 => (c0, getSlot env (start + i) (rpcEndpoint c0))) ∘ S) cs
               = imap (fun i c0 => (c0, getSlot env (S start + i) (rpcEndpoint c0))) cs).
  { apply imap_ext. intros i x _. simpl. rewrite Nat.add_succ_r. reflexivity. }
  rewrite Hext.
  destruct (decide (within_delay H d (getSlot env start (rpcEndpoint c))));
    reflexivity.
Qed.

(** The healthy subset is a sublist of the list it filters. *)
Lemma healthy_subset_sublist (H d : Z) (cs : list Connection) (start : nat) :
  sublist (healthy_subset env H d start cs) cs.
Proof.
  revert start. induction cs as [|c cs IH]; intros start.
  - rewrite healthy_subset_nil. constructor.
  - rewrite healthy_subset_cons. case_decide.
    + apply sublist_skip, IH.
    + apply sublist_cons, IH.
Qed.

(** The inner loop appends the healthy subset to its accumulator. *)
Lemma check_connections_run (H : Z) (cs acc : list Connection) (w : World) :
  exists w' : World,
    check_connections env H cs acc w
      = (Ok (acc ++ healthy_subset env H (maxBlockDelay (config w))
                                   (slot_calls w) cs), w') /\
    same_pools w w' /\
    slot_calls w' = (slot_calls w + length cs)%nat /\
    random_calls w' = random_calls w /\
    rpc_calls w' = rpc_calls w.
Proof.
  revert acc w. induction cs as [|c cs IH]; intros acc w.
  - exists w. simpl. rewrite healthy_subset_nil, app_nil_r, Nat.add_0_r.
    unfold ret. repeat split; reflexivity.
  - destruct (getCurrentBlock_run env (rpcEndpoint c) w)
      as (w1 & Hrun & Hp1 & Hs1 & Hr1 & Hc1).
    assert (Hcfg1 : config w1 = config w) by apply Hp1.
    cbn [check_connections]. unfold bind at 1. rewrite Hrun.
    unfold bind at 1, gets at 1. rewrite healthy_subset_cons, Hcfg1.
    (* the three branches log one line and go on with the rest *)
    assert (Hrest : forall level message acc',
      exists w' : World,
        (log level message ;;; check_connections env H cs acc') w1
          = (Ok (acc' ++ healthy_subset env H (maxBlockDelay (config w))
                                        (S (slot_calls w)) cs), w') /\
        same_pools w w' /\
        slot_calls w' = (slot_calls w + S (length cs))%nat /\
        random_calls w' = random_calls w /\
        rpc_calls w' = rpc_calls w).
    { intros level message acc'. unfold bind. rewrite log_run.
      pose proof (logged_same_pools level message w1) as Hp2.
      pose proof (logged_counters level message w1) as (Hs2 & Hr2 & Hc2 & _).
      destruct (IH acc' (logged level message w1))
        as (w' & Hrun' & Hp' & Hs' & Hr' & Hc').
      exists w'. rewrite Hrun'.
      assert (Hcfg2 : config (logged level message w1) = config w)
        by (destruct Hp2 as (-> & _); exact Hcfg1).
      rewrite Hcfg2, Hs2, Hs1.
      split; [reflexivity|].
      split; [eauto using same_pools_trans|].
      rewrite Hs', Hr', Hc', Hs2, Hr2, Hc2, Hs1, Hr1, Hc1.
      repeat split; lia. }
    destruct (getSlot env (slot_calls w) (rpcEndpoint c)) as [h|].
    + destruct (Z.leb_spec (H - h) (maxBlockDelay (config w))) as [Hle|Hgt].
      * rewrite decide_True by (exists h; auto).
        destruct (Hrest 4 "Healthy endpoint: ${rpcEndpoint}, block: ${currentBlock}"
                        (acc ++ [c])) as (w' & Hrun' & Hrest').
        exists w'. rewrite Hrun', <- app_assoc. split; [reflexivity | exact Hrest'].
      * rewrite decide_False
          by (intros (h' & Heq & Hle); inversion Heq; subst; lia).
        apply Hrest.
    + rewrite decide_False by (intros (h' & Heq & _); discriminate).
      apply Hrest.
Qed.

(** The outer loop replaces the healthy list of every entry in turn. *)
Lemma check_networks_run (H : Z) (entries : list (string * list Connection))
    (w : World) :
  exists w' : World,
    check_networks env H entries w = (Ok tt, w') /\
    config w' = config w /\
    allConnections w' = allConnections w /\
    healthyConnections w' =
      refreshed env H (maxBlockDelay (config w)) (slot_calls w) entries
                (healthyConnections w) /\
    random_calls w' = random_calls w /\
    rpc_calls w' = rpc_calls w.
Proof.
  revert w. induction entries as [|[network cs] rest IH]; intros w.
  - exists w. simpl. unfold ret. repeat split; reflexivity.
  - destruct (check_connections_run H cs [] w)
      as (w1 & Hrun & (Hcfg1 & Hall1 & Hh1) & Hs1 & Hr1 & Hc1).
    cbn [check_networks refreshed]. unfold bind at 1. rewrite Hrun.
    unfold bind at 1, modify at 1. unfold bind at 1. rewrite log_run.
    match goal with |- context [logged ?l ?m ?x] =>
      pose proof (logged_same_pools l m x) as (Hcfg2 & Hall2 & Hh2);
      pose proof (logged_counters l m x) as (Hs2 & Hr2 & Hc2 & _);
      destruct (IH (logged l m x)) as (w' & Hrun' & Hcfg' & Hall' & Hh' & Hr' & Hc')
    end.
    exists w'. split; [exact Hrun'|].
    rewrite Hcfg', Hall', Hh', Hr', Hc', Hcfg2, Hall2, Hh2, Hs2, Hr2, Hc2.
    simpl. rewrite Hcfg1, Hall1, Hh1, Hs1, Hr1, Hc1.
    repeat split; reflexivity.
Qed.

(** A refresh cycle whose reference query fails, or reports height 0,
    returns without touching the pools. *)
Lemma update_skips (w : World) :
  getSlot env (slot_calls w) (officialRpcEndpoint (config w)) = None \/
  getSlot env (slot_calls w) (officialRpcEndpoint (config w)) = Some 0 ->
  exists w' : World,
    updateHealthyConnections env w = (Ok tt, w') /\
    same_pools w w' /\
    slot_calls w' = S (slot_calls w) /\
    random_calls w' = random_calls w /\
    rpc_calls w' = rpc_calls w.
Proof.
  intros Hreply.
  unfold updateHealthyConnections, bind at 1. rewrite log_run.
  match goal with |- context [logged ?l ?m ?x] =>
    pose proof (logged_same_pools l m x) as Hp0;
    pose proof (logged_counters l m x) as (Hs0 & Hr0 & Hc0 & _);
    set (w0 := logged l m x) in *
  end.
  assert (Hcfg0 : config w0 = config w) by apply Hp0.
  destruct (getCurrentBlock_run env (officialRpcEndpoint (config w)) w0)
    as (w1 & Hrun & Hp1 & Hs1 & Hr1 & Hc1).
  unfold try_catch, bind at 1, gets at 1. rewrite Hcfg0.
  unfold bind at 1. rewrite Hrun, Hs0.
  assert (Hskip : exists w',
    log 2 "Failed to fetch block from official endpoint, skipping health check" w1
      = (Ok tt, w') /\ same_pools w w' /\ slot_calls w' = S (slot_calls w) /\
    random_calls w' = random_calls w /\ rpc_calls w' = rpc_calls w).
  { rewrite log_run. eexists; split; [reflexivity|].
    match goal with |- context [logged ?l ?m ?x] =>
      pose proof (logged_same_pools l m x) as Hp2;
      pose proof (logged_counters l m x) as (Hs2 & Hr2 & Hc2 & _)
    end.
    split; [eauto using same_pools_trans|].
    rewrite Hs2, Hr2, Hc2, Hs1, Hr1, Hc1, Hs0, Hr0, Hc0.
    repeat split; reflexivity. }
  destruct Hskip as (w' & Hlog & Hrest).
  destruct Hreply as [-> | ->]; rewrite Hlog; exists w'; split;
    solve [reflexivity | exact Hrest].
Qed.

(** A refresh cycle whose reference query reports a height other than 0
    replaces the healthy list of every network that has an entry. *)
Lemma update_refreshes (w : World) (H : Z) :
  getSlot env (slot_calls w) (officialRpcEndpoint (config w)) = Some H ->
  H <> 0 ->
  exists w' : World,
    updateHealthyConnections env w = (Ok tt, w') /\
    config w' = config w /\
    allConnections w' = allConnections w /\
    healthyConnections w' =
      refreshed env H (maxBlockDelay (config w)) (S (slot_calls w))
                (allConnections w) (healthyConnections w) /\
    random_calls w' = random_calls w /\
    rpc_calls w' = rpc_calls w.
Proof.
  intros Hreply Hnz.
  unfold updateHealthyConnections, bind at 1. rewrite log_run.
  match goal with |- context [logged ?l ?m ?x] =>
    pose proof (logged_same_pools l m x) as (Hcfg0 & Hall0 & Hh0);
    pose proof (logged_counters l m x) as (Hs0 & Hr0 & Hc0 & _);
    set (w0 := logged l m x) in *
  end.
  destruct (getCurrentBlock_run env (officialRpcEndpoint (config w)) w0)
    as (w1 & Hrun & (Hcfg1 & Hall1 & Hh1) & Hs1 & Hr1 & Hc1).
  unfold try_catch, bind at 1, gets at 1. rewrite Hcfg0.
  unfold bind at 1. rewrite Hrun, Hs0, Hreply.
  assert (Hgo : exists w',
    (log 4 "Official block: ${officialBlock}" ;;;
     all <- gets allConnections ;; check_networks env H (JsMap.entries all)) w1
      = (Ok tt, w') /\
    config w' = config w /\ allConnections w' = allConnections w /\
    healthyConnections w' =
      refreshed env H (maxBlockDelay (config w)) (S (slot_calls w))
                (allConnections w) (healthyConnections w) /\
    random_calls w' = random_calls w /\ rpc_calls w' = rpc_calls w).
  { unfold bind at 1. rewrite log_run.
    match goal with |- context [logged ?l ?m ?x] =>
      pose proof (logged_same_pools l m x) as (Hcfg2 & Hall2 & Hh2);
      pose proof (logged_counters l m x) as (Hs2 & Hr2 & Hc2 & _);
      set (w2 := logged l m x) in *
    end.
    unfold bind, gets, JsMap.entries.
    destruct (check_networks_run H (allConnections w2) w2)
      as (w' & Hrun' & Hcfg' & Hall' & Hh' & Hr' & Hc').
    exists w'. rewrite Hrun'. split; [reflexivity|].
    rewrite Hcfg', Hall', Hh', Hr', Hc', Hcfg2, Hall2, Hh2, Hs2, Hr2, Hc2,
      Hcfg1, Hall1, Hh1, Hs1, Hr1, Hc1, Hcfg0, Hall0, Hh0, Hs0, Hr0, Hc0.
    repeat split; reflexivity. }
  destruct Hgo as (w' & Hgo & Hrest).
  destruct H as [|p|p]; [congruence | |];
    rewrite Hgo; exists w'; (split; [reflexivity | exact Hrest]).
Qed.

(** Every refresh cycle returns normally and leaves the configuration, the
    full pool and the counters of the other oracles alone. *)
Lemma update_returns (w : World) :
  exists w' : World,
    updateHealthyConnections env w = (Ok tt, w') /\
    config w' = config w /\
    allConnections w' = allConnections w /\
    random_calls w' = random_calls w /\
    rpc_calls w' = rpc_calls w.
Proof.
  destruct (getSlot env (slot_calls w) (officialRpcEndpoint (config w)))
    as [H|] eqn:Hreply.
  - destruct (decide (H = 0)) as [->|Hnz].
    + destruct (update_skips w (or_intror Hreply))
        as (w' & Hrun & (Hc & Ha & _) & _ & Hr & Hk).
      exists w'. auto.
    + destruct (update_refreshes w H Hreply Hnz)
        as (w' & Hrun & Hc & Ha & _ & Hr & Hk).
      exists w'. auto.
  - destruct (update_skips w (or_introl Hreply))
      as (w' & Hrun & (Hc & Ha & _) & _ & Hr & Hk).
    exists w'. auto.
Qed.

Lemma refreshed_get_absent (H d : Z) (network : string)
    (entries : list (string * list Connection)) :
  forall (start : nat) (healthy : JsMap.t (list Connection)),
    network ∉ JsMap.keys entries ->
    JsMap.get network (refreshed env H d start entries healthy)
      = JsMap.get network healthy.
Proof.
  unfold JsMap.keys.
  induction entries as [|[n cs] rest IH]; intros start healthy Hnin; simpl.
  - reflexivity.
  - rewrite fmap_cons, not_elem_of_cons in Hnin. destruct Hnin as [Hne Hnin].
    rewrite IH by exact Hnin. apply JsMap_get_set_ne. simpl in Hne. congruence.
Qed.

Lemma refreshed_get_present (H d : Z) (network : string)
    (cs : list Connection) (after : list (string * list Connection)) :
  forall (before : list (string * list Connection)) (start : nat)
         (healthy : JsMap.t (list Connection)),
    network ∉ JsMap.keys before ->
    network ∉ JsMap.keys after ->
    JsMap.get network
      (refreshed env H d start (before ++ (network, cs) :: after) healthy)
      = Some (healthy_subset env H d (start + queries_for before) cs).
Proof.
  unfold JsMap.keys.
  induction before as [|[n cs'] before IH]; intros start healthy Hb Ha; simpl.
  - rewrite refreshed_get_absent by exact Ha.
    unfold queries_for. simpl. rewrite Nat.add_0_r. apply JsMap_get_set_eq.
  - rewrite fmap_cons, not_elem_of_cons in Hb. destruct Hb as [_ Hb].
    rewrite IH by assumption. unfold queries_for. simpl.
    rewrite Nat.add_assoc. reflexivity.
Qed.

(** A refresh cycle whose reference query reports a height [H] other than 0
    makes the healthy list of every network the healthy subset of its
    configured endpoints. *)
Lemma refresh_classifies (w : World) (H : Z) (network : string)
    (cs : list Connection) (before after : list (string * list Connection)) :
  getSlot env (slot_calls w) (officialRpcEndpoint (config w)) = Some H ->
  H <> 0 ->
  allConnections w = before ++ (network, cs) :: after ->
  network ∉ JsMap.keys before ->
  network ∉ JsMap.keys after ->
  exists w' : World,
    updateHealthyConnections env w = (Ok tt, w') /\
    allConnections w' = allConnections w /\
    healthy_of network w' =
      healthy_subset env H (maxBlockDelay (config w))
                     (S (slot_calls w) + queries_for before) cs.
Proof.
  intros Hreply Hnz Hall Hb Ha.
  destruct (update_refreshes w H Hreply Hnz) as (w' & Hrun & _ & Hall' & Hh & _).
  exists w'. split; [exact Hrun|]. split; [exact Hall'|].
  unfold healthy_of. rewrite Hh, Hall.
  rewrite refreshed_get_present by assumption. reflexivity.
Qed.

(** The boundary cases of the health test. *)
Lemma within_delay_boundary (H d : Z) :
  within_delay H d (Some (H - d)) /\
  ~ within_delay H d (Some (H - (d + 1))) /\
  (forall h, H < h -> 0 <= d -> within_delay H d (Some h)) /\
  ~ within_delay H d None.
Proof.
  unfold within_delay. repeat split.
  - exists (H - d). split; [reflexivity | lia].
  - intros (h & Heq & Hle). inversion Heq; subst. lia.
  - intros h Hlt Hd. exists h. split; [reflexivity | lia].
  - intros (h & Heq & _). discriminate.
Qed.

End Refresh.

(** ** Selection *)

(** The floor of the exact product is an index of an array of length [n]. *)
Lemma exact_floor_range (r : Q) (n : nat) :
  (0 <= r)%Q -> (r < 1)%Q -> (0 < n)%nat ->
  0 <= exact_floor r n < Z.of_nat n.
Proof.
  intros Hge Hlt Hn. unfold exact_floor.
  set (m := inject_Z (Z.of_nat n)).
  assert (Hm : (0 < m)%Q).
  { unfold m. replace 0%Q with (inject_Z 0) by reflexivity.
    rewrite <- Zlt_Qlt. lia. }
  split.
  - replace 0 with (Qfloor 0) by reflexivity.
    apply Qfloor_resp_le. apply Qmult_le_0_compat; [exact Hge|].
    apply Qlt_le_weak, Hm.
  - rewrite Zlt_Qlt. eapply Qle_lt_trans; [apply Qfloor_le|].
    fold m. rewrite <- (Qmult_1_l m) at 2.
    apply Qmult_lt_compat_r; assumption.
Qed.

(** The environments of the scenarios meet the contract of [Math.random]. *)
Lemma scenario_random_contract (a : string -> bool) (m : string -> string)
    (g : nat -> string -> option Z) (r : Q) (f : string -> FileState) :
  (0 <= r)%Q -> (r < 1)%Q ->
  random_contract (mkEnv a m g (fun _ => r) exact_floor f).
Proof.
  intros Hge Hlt. split.
  - intros k. simpl. split; assumption.
  - intros r' n. simpl. apply exact_floor_range.
Qed.

Section Selection.

Variable env : Env.

Lemma js_index_in_range {A : Type} (arr : list A) (i : Z) :
  0 <= i < Z.of_nat (length arr) ->
  exists x : A, js_index arr i = Some x /\ x ∈ arr.
Proof.
  intros [Hge Hlt]. unfold js_index.
  destruct (Z.ltb_spec i 0) as [Hneg|_]; [lia|].
  destruct (lookup_lt_is_Some_2 arr (Z.to_nat i)) as [x Hx]; [lia|].
  exists x. split; [exact Hx|]. eapply list_elem_of_lookup_2, Hx.
Qed.

(** A random pick from a non-empty array yields one of its members and
    consumes one random number. *)
Lemma pick_run (arr : list Connection) (level : Z) (message : string)
    (w : World) :
  random_contract env ->
  arr <> [] ->
  exists (c : Connection) (w' : World),
    (r <- Math_random env ;;
     _ <- rpcEndpoint_of (js_index arr (floor_product env r (length arr))) ;;
     log level message ;;;
     ret (js_index arr (floor_product env r (length arr)))) w
      = (Ok (Some c), w') /\
    c ∈ arr /\
    same_pools w w' /\
    objects w' = objects w /\
    slot_calls w' = slot_calls w /\
    random_calls w' = S (random_calls w) /\
    rpc_calls w' = rpc_calls w.
Proof.
  intros [Hrange Hfloor] Hne.
  destruct (Hrange (random_calls w)) as [Hge Hlt].
  assert (Hlen : (0 < length arr)%nat) by (destruct arr; simpl; [congruence | lia]).
  destruct (js_index_in_range arr
              (floor_product env (random env (random_calls w)) (length arr)))
    as (c & Hc & Hin).
  { apply Hfloor; assumption. }
  unfold bind at 1, Math_random at 1. rewrite Hc.
  unfold bind at 1, rpcEndpoint_of, ret at 1.
  unfold bind at 1. rewrite log_run. unfold ret.
  match goal with |- context [logged ?l ?m ?x] =>
    pose proof (logged_same_pools l m x) as Hp;
    pose proof (logged_counters l m x) as (Hs & Hr & Hk & Ho & _)
  end.
  eexists c, _. split; [reflexivity|]. split; [exact Hin|].
  split; [exact Hp|]. rewrite Ho, Hs, Hr, Hk. simpl. auto.
Qed.

(** The third tier: a new connection to the reference endpoint, or the
    [TypeError] of the constructor. *)
Lemma getConnection_tier3 (network : option string) (w : World) :
  healthy_of (default (defaultNetwork (config w)) network) w = [] ->
  all_of (default (defaultNetwork (config w)) network) w = [] ->
  exists w' : World,
    getConnection env network w
      = (if accepts env (officialRpcEndpoint (config w))
         then Ok (Some (mkConnection (officialRpcEndpoint (config w)) None
                                     (objects w)))
         else Throw (TypeError (rejection env (officialRpcEndpoint (config w)))),
         w') /\
    same_pools w w' /\
    slot_calls w' = slot_calls w /\
    rpc_calls w' = rpc_calls w /\
    random_calls w' = random_calls w /\
    objects w' = (if accepts env (officialRpcEndpoint (config w))
                  then S (objects w) else objects w).
Proof.
  intros Hh Ha.
  set (net := default (defaultNetwork (config w)) network) in *.
  unfold getConnection, bind at 1, gets at 1.
  unfold bind at 1, gets at 1. fold net. fold (healthy_of net w). rewrite Hh.
  cbn [length Nat.eqb]. unfold bind at 1. rewrite log_run.
  match goal with |- context [logged ?l ?m ?x] =>
    pose proof (logged_same_pools l m x) as Hp0;
    pose proof (logged_counters l m x) as (Hs0 & Hr0 & Hk0 & Ho0 & _);
    set (w0 := logged l m x) in *
  end.
  clearbody w0.
  assert (Hall0 : allConnections w0 = allConnections w) by apply Hp0.
  unfold bind at 1, gets at 1. rewrite Hall0. fold (all_of net w). rewrite Ha.
  cbn [length]. change (0 <? 0)%nat with false. cbv iota.
  unfold bind at 1. rewrite log_run.
  match goal with |- context [logged ?l ?m ?x] =>
    pose proof (logged_same_pools l m x) as Hp1;
    pose proof (logged_counters l m x) as (Hs1 & Hr1 & Hk1 & Ho1 & _);
    set (w1 := logged l m x) in *
  end.
  clearbody w1.
  unfold bind, newConnection, ret. cbv beta.
  destruct (accepts env (officialRpcEndpoint (config w))).
  - rewrite Ho1, Ho0. eexists. split; [reflexivity|].
    split.
    { eapply same_pools_trans; [exact Hp0|].
      eapply same_pools_trans; [exact Hp1|].
      unfold same_pools; simpl; auto. }
    simpl. rewrite Hs1, Hr1, Hk1, Hs0, Hr0, Hk0. auto.
  - eexists. split; [reflexivity|].
    split; [eauto using same_pools_trans|].
    rewrite Hs1, Hr1, Hk1, Ho1, Hs0, Hr0, Hk0, Ho0. auto.
Qed.

(** The three tiers of [getConnection], when it has something to hand out. *)
Lemma getConnection_run (network : option string) (w : World) :
  random_contract env ->
  selectable env (default (defaultNetwork (config w)) network) w ->
  let net := default (defaultNetwork (config w)) network in
  exists (c : Connection) (w' : World),
    getConnection env network w = (Ok (Some c), w') /\
    same_pools w w' /\
    slot_calls w' = slot_calls w /\
    rpc_calls w' = rpc_calls w /\
    (random_calls w' <= S (random_calls w))%nat /\
    (healthy_of net w <> [] -> c ∈ healthy_of net w /\ objects w' = objects w) /\
    (healthy_of net w = [] -> all_of net w <> [] ->
       c ∈ all_of net w /\ objects w' = objects w) /\
    (healthy_of net w = [] -> all_of net w = [] ->
       c = mkConnection (officialRpcEndpoint (config w)) None (objects w) /\
       objects w' = S (objects w)).
Proof.
  intros Hrandom Hsel net. fold net in Hsel.
  destruct (healthy_of net w) as [|h hs] eqn:Hh.
  - destruct (all_of net w) as [|a rest] eqn:Ha.
    + destruct (getConnection_tier3 network w Hh Ha)
        as (w' & Hrun & Hp & Hs & Hk & Hr & Ho).
      assert (Hacc : accepts env (officialRpcEndpoint (config w)) = true).
      { destruct Hsel as [Hsel | [Hsel | Hsel]]; [congruence | congruence | exact Hsel]. }
      rewrite Hacc in Hrun, Ho.
      eexists _, w'. split; [exact Hrun|]. split; [exact Hp|].
      rewrite Hs, Hk, Hr, Ho.
      repeat split; try reflexivity; try lia; try congruence.
    + unfold getConnection, bind at 1, gets at 1.
      unfold bind at 1, gets at 1. fold net. fold (healthy_of net w). rewrite Hh.
      cbn [length Nat.eqb]. unfold bind at 1. rewrite log_run.
      match goal with |- context [logged ?l ?m ?x] =>
        pose proof (logged_same_pools l m x) as Hp0;
        pose proof (logged_counters l m x) as (Hs0 & Hr0 & Hk0 & Ho0 & _);
        set (w0 := logged l m x) in *
      end.
      assert (Hall0 : allConnections w0 = allConnections w) by apply Hp0.
      unfold bind at 1, gets at 1. rewrite Hall0. fold (all_of net w). rewrite Ha.
      replace (0 <? length (a :: rest))%nat with true by reflexivity.
      destruct (pick_run (a :: rest) 2
        "Falling back to potentially unhealthy connection: ${fallbackConnection.rpcEndpoint}"
        w0) as (c & w' & Hrun & Hin & Hp & Ho & Hs & Hr & Hk);
        [exact Hrandom | discriminate |].
      exists c, w'. split; [exact Hrun|].
      split; [eauto using same_pools_trans|].
      rewrite Ho, Hs, Hr, Hk, Ho0, Hs0, Hr0, Hk0.
      repeat split; try reflexivity; try lia; try congruence; try assumption.
  - unfold getConnection, bind at 1, gets at 1.
    unfold bind at 1, gets at 1. fold net. fold (healthy_of net w). rewrite Hh.
    replace (length (h :: hs) =? 0)%nat with false by reflexivity.
    destruct (pick_run (h :: hs) 4 "Selected connection: ${connection.rpcEndpoint}" w)
      as (c & w' & Hrun & Hin & Hp & Ho & Hs & Hr & Hk);
      [exact Hrandom | discriminate |].
    exists c, w'. split; [exact Hrun|].
    split; [exact Hp|].
    rewrite Ho, Hs, Hr, Hk.
    repeat split; try reflexivity; try lia; try congruence; try assumption.
Qed.

(** What [getConnection] hands out is a candidate. *)
Lemma getConnection_candidate (network : option string) (w w' : World)
    (c : Connection) :
  random_contract env ->
  getConnection env network w = (Ok (Some c), w') ->
  candidate (default (defaultNetwork (config w)) network) w c.
Proof.
  intros Hrandom Hrun.
  set (net := default (defaultNetwork (config w)) network) in *.
  destruct (healthy_of net w) as [|h hs] eqn:Hh.
  - destruct (all_of net w) as [|a rest] eqn:Ha.
    + destruct (getConnection_tier3 network w Hh Ha) as (w1 & Hrun1 & _).
      rewrite Hrun in Hrun1.
      destruct (accepts env (officialRpcEndpoint (config w))); [|discriminate].
      inversion Hrun1; subst. right. right. split; reflexivity.
    + assert (Hsel : selectable env net w) by (right; left; fold net; congruence).
      destruct (getConnection_run network w Hrandom Hsel)
        as (c1 & w1 & Hrun1 & _ & _ & _ & _ & _ & H2 & _).
      rewrite Hrun in Hrun1. inversion Hrun1; subst.
      right. left. fold net in H2. rewrite Ha in H2. rewrite Ha.
      apply H2; [exact Hh | discriminate].
  - assert (Hsel : selectable env net w) by (left; fold net; congruence).
    destruct (getConnection_run network w Hrandom Hsel)
      as (c1 & w1 & Hrun1 & _ & _ & _ & _ & H1 & _).
    rewrite Hrun in Hrun1. inversion Hrun1; subst.
    left. fold net in H1. rewrite Hh in H1. rewrite Hh.
    apply H1. discriminate.
Qed.

End Selection.

(** ** The retry loop *)

Lemma candidate_same_pools (network : string) (w w' : World) (c : Connection) :
  same_pools w w' -> candidate network w c -> candidate network w' c.
Proof.
  intros (Hc & Ha & Hh). unfold candidate, healthy_of, all_of.
  rewrite Hc, Ha, Hh. auto.
Qed.

Lemma selectable_same_pools (env : Env) (network : string) (w w' : World) :
  same_pools w w' -> selectable env network w -> selectable env network w'.
Proof.
  intros (Hc & Ha & Hh). unfold selectable, healthy_of, all_of.
  rewrite Hc, Ha, Hh. auto.
Qed.

Lemma selectable_or_not (env : Env) (network : string) (w : World) :
  selectable env network w \/
  (healthy_of network w = [] /\ all_of network w = [] /\
   accepts env (officialRpcEndpoint (config w)) = false).
Proof.
  unfold selectable.
  destruct (healthy_of network w); [|left; left; discriminate].
  destruct (all_of network w); [|left; right; left; discriminate].
  destruct (accepts env (officialRpcEndpoint (config w))); auto.
Qed.

Section Retrying.

Variable env : Env.
Hypothesis Hrandom : random_contract env.

Context {T : Type}.
Variable rpcMethod : nat -> Connection -> Settled T.

(** Leaving the loop: the condition [attempt < maxRetries] is false. *)
Lemma retry_loop_exit (fuel : nat) (network : string)
    (maxRetries timeoutMs attempt : Z) (lastError : option Error)
    (w : World) :
  maxRetries <= attempt ->
  retry_loop env rpcMethod fuel network maxRetries timeoutMs attempt
             lastError w
    = (Throw (default RetriesFailedError lastError),
       logged 1 "All RPC retries failed" w).
Proof.
  intros Hge.
  destruct fuel; cbn [retry_loop];
    (destruct (Z.ltb_spec attempt maxRetries) as [Hlt|_]; [lia|]);
    unfold bind, throw; rewrite log_run; reflexivity.
Qed.

(** One iteration, when an endpoint can be selected: the operation is
    invoked once on a candidate, and either its result is returned, or the
    conversion of the rejection value throws, or the failure is recorded and
    the loop goes on with [attempt + 1]. *)
Lemma retry_loop_step (fuel : nat) (network : string)
    (maxRetries timeoutMs attempt : Z) (lastError : option Error)
    (w : World) :
  attempt < maxRetries ->
  selectable env network w ->
  exists (c : Connection) (w1 : World),
    candidate network w c /\
    same_pools w w1 /\
    rpc_calls w1 = S (rpc_calls w) /\
    retry_loop env rpcMethod (S fuel) network maxRetries timeoutMs attempt
               lastError w
      = match rpcMethod (rpc_calls w) c with
        | Fulfilled result => (Ok result, w1)
        | Rejected (ReasonNoString what) => (Throw (TypeError what), w1)
        | other =>
            retry_loop env rpcMethod fuel network maxRetries timeoutMs
              (attempt + 1) (failure_of timeoutMs other)
              (logged 2 "RPC call failed (attempt ${attempt + 1}/${maxRetries}): ${connection.rpcEndpoint}" w1)
        end.
Proof.
  intros Hlt Hsel. cbn [retry_loop].
  destruct (Z.ltb_spec attempt maxRetries) as [_|Hge]; [|lia].
  destruct (getConnection_run env (Some network) w Hrandom Hsel)
    as (c & w0 & Hsel0 & Hp & _ & Hk & _).
  pose proof (getConnection_candidate env (Some network) w w0 c Hrandom Hsel0)
    as Hcand.
  exists c, (with_rpc_calls (S (rpc_calls w0)) w0).
  split; [exact Hcand|].
  split.
  { eapply same_pools_trans; [exact Hp|]. unfold same_pools; simpl; auto. }
  split; [simpl; congruence|].
  unfold bind at 1. rewrite Hsel0. unfold bind at 1, race. rewrite Hk.
  destruct (rpcMethod (rpc_calls w) c) as [result|[message|text|what]|];
    cbn [failure_of].
  - reflexivity.
  - unfold bind, to_Error, ret. rewrite log_run. reflexivity.
  - unfold bind, to_Error, ret. rewrite log_run. reflexivity.
  - reflexivity.
  - unfold bind. rewrite log_run. reflexivity.
Qed.

(** One iteration, when nothing can be selected: the constructor of the
    connection to the reference endpoint throws, and the operation is not
    invoked. *)
Lemma retry_loop_stuck (fuel : nat) (network : string)
    (maxRetries timeoutMs attempt : Z) (lastError : option Error)
    (w : World) :
  attempt < maxRetries ->
  healthy_of network w = [] ->
  all_of network w = [] ->
  accepts env (officialRpcEndpoint (config w)) = false ->
  exists w' : World,
    retry_loop env rpcMethod (S fuel) network maxRetries timeoutMs attempt
               lastError w
      = (Throw (TypeError (rejection env (officialRpcEndpoint (config w)))),
         w') /\
    same_pools w w' /\
    rpc_calls w' = rpc_calls w.
Proof.
  intros Hlt Hh Ha Hacc. cbn [retry_loop].
  destruct (Z.ltb_spec attempt maxRetries) as [_|Hge]; [|lia].
  destruct (getConnection_tier3 env (Some network) w Hh Ha)
    as (w' & Hrun & Hp & _ & Hk & _).
  rewrite Hacc in Hrun. unfold bind. rewrite Hrun.
  exists w'. split; [reflexivity|]. split; [exact Hp | exact Hk].
Qed.

(** When every attempt on a candidate fails, the loop invokes the operation
    once per remaining attempt and then throws the last failure recorded. *)
Lemma retry_loop_all_fail (network : string) (maxRetries timeoutMs : Z)
    (remaining : nat) :
  forall (fuel : nat) (attempt : Z) (lastError : option Error) (w : World),
    remaining = Z.to_nat (maxRetries - attempt) ->
    (remaining <= fuel)%nat ->
    selectable env network w ->
    (forall k c, candidate network w c -> is_failure (rpcMethod k c)) ->
    exists (e : Error) (w' : World),
      retry_loop env rpcMethod fuel network maxRetries timeoutMs attempt
                 lastError w = (Throw e, w') /\
      same_pools w w' /\
      rpc_calls w' = (rpc_calls w + remaining)%nat /\
      match remaining with
      | O => e = default RetriesFailedError lastError
      | S _ =>
          exists c : Connection,
            candidate network w c /\
            failure_of timeoutMs (rpcMethod (rpc_calls w' - 1) c) = Some e
      end.
Proof.
  induction remaining as [|remaining IH];
    intros fuel attempt lastError w Hrem Hfuel Hsel Hfail.
  - rewrite retry_loop_exit by lia.
    pose proof (logged_same_pools 1 "All RPC retries failed" w) as Hp.
    pose proof (logged_counters 1 "All RPC retries failed" w) as (_ & _ & Hk & _).
    eexists _, _. split; [reflexivity|]. rewrite Hk, Nat.add_0_r. auto.
  - destruct fuel as [|fuel]; [lia|].
    destruct (retry_loop_step fuel network maxRetries timeoutMs attempt
                lastError w) as (c & w1 & Hcand & Hp1 & Hk1 & Hstep);
      [lia | exact Hsel |].
    rewrite Hstep. clear Hstep.
    pose proof (Hfail (rpc_calls w) c Hcand) as Hf.
    set (line := "RPC call failed (attempt ${attempt + 1}/${maxRetries}): ${connection.rpcEndpoint}").
    pose proof (logged_same_pools 2 line w1) as Hp2.
    pose proof (logged_counters 2 line w1) as (_ & _ & Hk2 & _).
    assert (Hp12 : same_pools w (logged 2 line w1))
      by eauto using same_pools_trans.
    destruct (IH fuel (attempt + 1)
                (failure_of timeoutMs (rpcMethod (rpc_calls w) c))
                (logged 2 line w1))
      as (e & w' & Hrun & Hp' & Hk' & Hlast).
    { lia. }
    { lia. }
    { eapply selectable_same_pools; [exact Hp12 | exact Hsel]. }
    { intros k c' Hc'. apply Hfail.
      eapply candidate_same_pools; [|exact Hc'].
      destruct Hp12 as (? & ? & ?). unfold same_pools. auto. }
    exists e, w'. split.
    { destruct (rpcMethod (rpc_calls w) c) as [result|[message|text|what]|];
        try contradiction; exact Hrun. }
    split; [eauto using same_pools_trans|].
    rewrite Hk2, Hk1 in Hk'. split; [lia|].
    destruct remaining as [|remaining'].
    + exists c. split; [exact Hcand|].
      replace (rpc_calls w' - 1)%nat with (rpc_calls w) by lia.
      destruct (rpcMethod (rpc_calls w) c) as [result|[message|text|what]|];
        try contradiction; simpl in Hlast |- *; congruence.
    + destruct Hlast as (c' & Hc' & Hlast). exists c'. split; [|exact Hlast].
      eapply candidate_same_pools; [|exact Hc'].
      destruct Hp12 as (? & ? & ?). unfold same_pools. auto.
Qed.

(** When the first [k] attempts fail and the next one ends the call, by
    succeeding or by a rejection value that has no string conversion, the
    loop ends that way after exactly [k + 1] invocations. *)
Lemma retry_loop_first_ending (network : string) (maxRetries timeoutMs : Z)
    (ending : Res T) (k : nat) :
  forall (fuel : nat) (attempt : Z) (lastError : option Error) (w : World),
    attempt + Z.of_nat k < maxRetries ->
    (Z.to_nat (maxRetries - attempt) <= fuel)%nat ->
    selectable env network w ->
    (forall j c, (j < k)%nat -> candidate network w c ->
                 is_failure (rpcMethod (rpc_calls w + j) c)) ->
    (forall c, candidate network w c ->
               ending_of (rpcMethod (rpc_calls w + k) c) = Some ending) ->
    exists w' : World,
      retry_loop env rpcMethod fuel network maxRetries timeoutMs attempt
                 lastError w = (ending, w') /\
      same_pools w w' /\
      rpc_calls w' = (rpc_calls w + k + 1)%nat.
Proof.
  induction k as [|k IH];
    intros fuel attempt lastError w Hlt Hfuel Hsel Hfail Hok.
  - destruct fuel as [|fuel]; [lia|].
    destruct (retry_loop_step fuel network maxRetries timeoutMs attempt
                lastError w) as (c & w1 & Hcand & Hp1 & Hk1 & Hstep);
      [lia | exact Hsel |].
    rewrite Hstep. specialize (Hok c Hcand). rewrite Nat.add_0_r in Hok.
    exists w1. split; [|split; [exact Hp1 | lia]].
    destruct (rpcMethod (rpc_calls w) c) as [r|[message|text|what]|];
      simpl in Hok; congruence.
  - destruct fuel as [|fuel]; [lia|].
    destruct (retry_loop_step fuel network maxRetries timeoutMs attempt
                lastError w) as (c & w1 & Hcand & Hp1 & Hk1 & Hstep);
      [lia | exact Hsel |].
    rewrite Hstep. clear Hstep.
    pose proof (Hfail 0%nat c ltac:(lia) Hcand) as Hf.
    rewrite Nat.add_0_r in Hf.
    set (line := "RPC call failed (attempt ${attempt + 1}/${maxRetries}): ${connection.rpcEndpoint}").
    pose proof (logged_same_pools 2 line w1) as Hp2.
    pose proof (logged_counters 2 line w1) as (_ & _ & Hk2 & _).
    assert (Hp12 : same_pools w (logged 2 line w1))
      by eauto using same_pools_trans.
    assert (Hback : forall c', candidate network (logged 2 line w1) c' ->
                               candidate network w c').
    { intros c' Hc'. eapply candidate_same_pools; [|exact Hc'].
      destruct Hp12 as (? & ? & ?). unfold same_pools. auto. }
    destruct (IH fuel (attempt + 1)
                (failure_of timeoutMs (rpcMethod (rpc_calls w) c))
                (logged 2 line w1)) as (w' & Hrun & Hp' & Hk').
    + lia.
    + lia.
    + eapply selectable_same_pools; [exact Hp12 | exact Hsel].
    + intros j c' Hj Hc'. rewrite Hk2, Hk1.
      replace (S (rpc_calls w) + j)%nat with (rpc_calls w + S j)%nat by lia.
      apply Hfail; [lia | apply Hback, Hc'].
    + intros c' Hc'. rewrite Hk2, Hk1.
      replace (S (rpc_calls w) + k)%nat with (rpc_calls w + S k)%nat by lia.
      apply Hok, Hback, Hc'.
    + exists w'. split.
      { destruct (rpcMethod (rpc_calls w) c) as [r|[message|text|what]|];
          try contradiction; exact Hrun. }
      split; [eauto using same_pools_trans|].
      rewrite Hk2, Hk1 in Hk'. lia.
Qed.

(** When the first [k] attempts fail and the next one succeeds, the loop
    returns that result after exactly [k + 1] invocations. *)
Lemma retry_loop_first_success (network : string) (maxRetries timeoutMs : Z)
    (result : T) (k : nat) :
  forall (fuel : nat) (attempt : Z) (lastError : option Error) (w : World),
    attempt + Z.of_nat k < maxRetries ->
    (Z.to_nat (maxRetries - attempt) <= fuel)%nat ->
    selectable env network w ->
    (forall j c, (j < k)%nat -> candidate network w c ->
                 is_failure (rpcMethod (rpc_calls w + j) c)) ->
    (forall c, candidate network w c ->
               rpcMethod (rpc_calls w + k) c = Fulfilled result) ->
    exists w' : World,
      retry_loop env rpcMethod fuel network maxRetries timeoutMs attempt
                 lastError w = (Ok result, w') /\
      same_pools w w' /\
      rpc_calls w' = (rpc_calls w + k + 1)%nat.
Proof.
  intros fuel attempt lastError w Hlt Hfuel Hsel Hfail Hok.
  apply retry_loop_first_ending; try assumption.
  intros c Hc. rewrite (Hok c Hc). reflexivity.
Qed.

(** The loop never runs out of fuel when given one unit per remaining
    attempt, and it never throws the error of the [!connection] branch. *)
Lemma retry_loop_outcome (network : string) (maxRetries timeoutMs : Z)
    (fuel : nat) :
  forall (attempt : Z) (lastError : option Error) (w : World),
    (Z.to_nat (maxRetries - attempt) <= fuel)%nat ->
    (forall n, lastError <> Some (NoConnectionsError n)) ->
    exists w' : World,
      (exists result : T,
         retry_loop env rpcMethod fuel network maxRetries timeoutMs attempt
                    lastError w = (Ok result, w')) \/
      (exists e : Error,
         retry_loop env rpcMethod fuel network maxRetries timeoutMs attempt
                    lastError w = (Throw e, w') /\
         forall n, e <> NoConnectionsError n).
Proof.
  induction fuel as [|fuel IH]; intros attempt lastError w Hfuel Hlast.
  - rewrite retry_loop_exit by lia.
    eexists. right. eexists. split; [reflexivity|].
    intros n. destruct lastError as [e|]; simpl; [|discriminate].
    intros ->. exact (Hlast n eq_refl).
  - destruct (Z.lt_ge_cases attempt maxRetries) as [Hlt|Hge].
    + destruct (selectable_or_not env network w) as [Hsel | (Hh & Ha & Hacc)].
      * destruct (retry_loop_step fuel network maxRetries timeoutMs attempt
                    lastError w) as (c & w1 & _ & Hp1 & Hk1 & Hstep);
          [lia | exact Hsel |].
        rewrite Hstep. clear Hstep.
        destruct (rpcMethod (rpc_calls w) c) as [result|[message|text|what]|].
        -- exists w1. left. exists result. reflexivity.
        -- apply IH; [lia|]. intros n. discriminate.
        -- apply IH; [lia|]. intros n. discriminate.
        -- exists w1. right. eexists. split; [reflexivity|]. discriminate.
        -- apply IH; [lia|]. intros n. discriminate.
      * destruct (retry_loop_stuck fuel network maxRetries timeoutMs attempt
                    lastError w Hlt Hh Ha Hacc) as (w' & Hrun & _).
        exists w'. right. eexists. split; [exact Hrun|]. discriminate.
    + rewrite retry_loop_exit by lia.
      eexists. right. eexists. split; [reflexivity|].
      intros n. destruct lastError as [e|]; simpl; [|discriminate].
      intros ->. exact (Hlast n eq_refl).
Qed.

End Retrying.

(** ** Initialisation and the pool invariant *)

Section Lifecycle.

Variable env : Env.

Lemma set_add_elem (x y : string) (s : list string) :
  y ∈ set_add x s <-> y = x \/ y ∈ s.
Proof.
  unfold set_add. destruct (decide (x ∈ s)) as [Hin|Hnin].
  - split; [auto|]. intros [->|?]; assumption.
  - rewrite elem_of_app, list_elem_of_singleton. tauto.
Qed.

Lemma set_add_NoDup (x : string) (s : list string) :
  NoDup s -> NoDup (set_add x s).
Proof.
  intros Hs. unfold set_add. destruct (decide (x ∈ s)) as [Hin|Hnin].
  - exact Hs.
  - apply list.NoDup_app. split; [exact Hs|]. split.
    + intros y Hy Hy'. apply list_elem_of_singleton in Hy'. subst. contradiction.
    + apply NoDup_singleton.
Qed.

Lemma add_hosts_NoDup (hosts : list Json) (s : list string) :
  NoDup s -> NoDup (snd (add_hosts hosts s)).
Proof.
  revert s. induction hosts as [|host hosts IH]; intros s Hs; simpl.
  - exact Hs.
  - destruct host; simpl; try exact Hs. apply IH, set_add_NoDup, Hs.
Qed.

Lemma foldl_set_add_NoDup (l s : list string) :
  NoDup s -> NoDup (foldl (fun s endpoint => set_add endpoint s) s l).
Proof.
  revert s. induction l as [|x l IH]; intros s Hs; simpl.
  - exact Hs.
  - apply IH, set_add_NoDup, Hs.
Qed.

(** The endpoint list holds the reference endpoint and no address twice. *)
Lemma loaded_endpoints_official (cfg : RpcManagerConfig) :
  officialRpcEndpoint cfg ∈ loaded_endpoints env cfg.
Proof. unfold loaded_endpoints. apply set_add_elem. left. reflexivity. Qed.

Lemma loaded_endpoints_NoDup (cfg : RpcManagerConfig) :
  NoDup (loaded_endpoints env cfg).
Proof.
  unfold loaded_endpoints. apply set_add_NoDup.
  assert (Hc : NoDup match customRpcEndpoints cfg with
                     | Some custom =>
                         foldl (fun s endpoint => set_add endpoint s) [] custom
                     | None => []
                     end).
  { destruct (customRpcEndpoints cfg); [apply foldl_set_add_NoDup|]; constructor. }
  destruct (rpcHostsFilePath cfg) as [path|]; [|exact Hc].
  destruct (decide (path = "")); [exact Hc|].
  destruct (hostsFile env path) as [| |document]; try exact Hc.
  destruct document; try exact Hc. apply add_hosts_NoDup, Hc.
Qed.

Lemma console_only_refl (w : World) : console_only w w.
Proof. unfold console_only, same_pools. auto 10. Qed.

Lemma console_only_logged (level : Z) (message : string) (w w0 : World) :
  console_only w w0 -> console_only w (logged level message w0).
Proof.
  unfold console_only, same_pools, logged.
  destruct (level <=? logLevel (config w0)); simpl; auto.
Qed.

Lemma loadRpcEndpoints_run (w : World) :
  exists w' : World,
    loadRpcEndpoints env w = (Ok (loaded_endpoints env (config w)), w') /\
    console_only w w'.
Proof.
  unfold loadRpcEndpoints, loaded_endpoints.
  unfold bind at 1, gets at 1. unfold bind at 1.
  (* the custom endpoints *)
  set (custom := match customRpcEndpoints (config w) with
                 | Some custom =>
                     foldl (fun s endpoint => set_add endpoint s) [] custom
                 | None => []
                 end).
  assert (Hcustom : exists w1,
    match customRpcEndpoints (config w) with
    | Some custom =>
        if (0 <? length custom)%nat
        then log 3 "Added ${this.config.customRpcEndpoints.length} custom endpoints" ;;;
             ret (foldl (fun s endpoint => set_add endpoint s) [] custom)
        else ret []
    | None => ret []
    end w = (Ok custom, w1) /\ console_only w w1).
  { unfold custom. destruct (customRpcEndpoints (config w)) as [[|x l]|].
    - exists w. split; [reflexivity | apply console_only_refl].
    - change (0 <? length (x :: l))%nat with true. cbv iota.
      unfold bind. rewrite log_run. eexists. split; [reflexivity|].
      apply console_only_logged, console_only_refl.
    - exists w. split; [reflexivity | apply console_only_refl]. }
  destruct Hcustom as (w1 & -> & Hw1). clearbody custom.
  unfold bind at 1.
  (* the hosts file *)
  assert (Hlog : forall level message (l : list string),
    exists w2, (log level message ;;; ret l) w1 = (Ok l, w2) /\ console_only w w2).
  { intros level message l. unfold bind. rewrite log_run.
    eexists. split; [reflexivity|]. apply console_only_logged, Hw1. }
  destruct (rpcHostsFilePath (config w)) as [[|a path]|].
  - rewrite decide_True by reflexivity.
    eexists. split; [reflexivity | exact Hw1].
  - rewrite decide_False by discriminate.
    destruct (hostsFile env (String a path)) as [| |document].
    + destruct (Hlog 2 "RPC hosts file not found at ${this.config.rpcHostsFilePath}" custom)
        as (w2 & -> & Hw2).
      eexists. split; [reflexivity | exact Hw2].
    + destruct (Hlog 1 "Failed to load endpoints from file:" custom)
        as (w2 & -> & Hw2).
      eexists. split; [reflexivity | exact Hw2].
    + destruct document as [| | | |hosts|];
        try (destruct (Hlog 1 "Failed to load endpoints from file:" custom)
               as (w2 & -> & Hw2);
             eexists; split; [reflexivity | exact Hw2]).
      destruct (add_hosts hosts custom) as [[[]| |] endpoints']; simpl snd.
      * destruct (Hlog 3 "Loaded ${hostsFromFile.length} endpoints from file" endpoints')
          as (w2 & -> & Hw2).
        eexists. split; [reflexivity | exact Hw2].
      * destruct (Hlog 1 "Failed to load endpoints from file:" endpoints')
          as (w2 & -> & Hw2).
        eexists. split; [reflexivity | exact Hw2].
      * destruct (Hlog 1 "Failed to load endpoints from file:" endpoints')
          as (w2 & -> & Hw2).
        eexists. split; [reflexivity | exact Hw2].
  - eexists. split; [reflexivity | exact Hw1].
Qed.

Lemma with_objects_twice (n m : nat) (w : World) :
  with_objects n (with_objects m w) = with_objects n w.
Proof. reflexivity. Qed.

Lemma first_rejected_None (endpoints : list string) :
  first_rejected env endpoints = None <->
  forall endpoint, endpoint ∈ endpoints -> accepts env endpoint = true.
Proof.
  induction endpoints as [|e rest IH]; simpl.
  - split; [|reflexivity]. intros _ x Hx. inversion Hx.
  - destruct (accepts env e) eqn:He.
    + rewrite IH. split.
      * intros Hall x Hx. apply elem_of_cons in Hx as [->|Hx]; auto.
      * intros Hall x Hx. apply Hall. right. exact Hx.
    + split; [discriminate|]. intros Hall.
      rewrite (Hall e) in He by left. discriminate.
Qed.

Lemma first_rejected_Some (endpoints : list string) (endpoint : string) :
  first_rejected env endpoints = Some endpoint ->
  endpoint ∈ endpoints /\ accepts env endpoint = false.
Proof.
  induction endpoints as [|e rest IH]; simpl; [discriminate|].
  destruct (accepts env e) eqn:He.
  - intros Hr. destruct (IH Hr). split; [right|]; assumption.
  - intros [= <-]. split; [left | exact He].
Qed.

(** [connect_all] creates one connection per endpoint, in order, each with
    the commitment "confirmed" and the next free object identity; it stops,
    throwing, at the first address the constructor does not accept. *)
Lemma connect_all_run (endpoints : list string) (w : World) :
  match first_rejected env endpoints with
  | None =>
      connect_all env endpoints w
        = (Ok (imap (fun i endpoint =>
                       mkConnection endpoint (Some "confirmed") (objects w + i))
                    endpoints),
           with_objects (objects w + length endpoints) w)
  | Some endpoint =>
      exists n : nat,
        connect_all env endpoints w
          = (Throw (TypeError (rejection env endpoint)),
             with_objects (objects w + n) w)
  end.
Proof.
  revert w. induction endpoints as [|endpoint rest IH]; intros w.
  - simpl. unfold ret. rewrite Nat.add_0_r. destruct w; reflexivity.
  - cbn [first_rejected]. specialize (IH (with_objects (S (objects w)) w)).
    destruct (accepts env endpoint) eqn:Hacc.
    + destruct (first_rejected env rest) as [bad|].
      * destruct IH as (n & IH). exists (S n).
        cbn [connect_all]. unfold bind at 1, newConnection at 1.
        rewrite Hacc. unfold bind at 1. rewrite IH, with_objects_twice.
        simpl. do 2 f_equal. lia.
      * cbn [connect_all]. unfold bind at 1, newConnection at 1.
        rewrite Hacc. unfold bind at 1. rewrite IH. unfold ret.
        rewrite with_objects_twice.
        simpl. rewrite Nat.add_0_r. f_equal; [f_equal; f_equal|].
        -- apply imap_ext. intros i x _. simpl. f_equal. lia.
        -- f_equal. lia.
    + exists 0%nat. cbn [connect_all]. unfold bind at 1, newConnection at 1.
      rewrite Hacc, Nat.add_0_r. destruct w; reflexivity.
Qed.

Lemma addresses_imap (f : nat -> string -> Connection) (endpoints : list string) :
  (forall i endpoint, rpcEndpoint (f i endpoint) = endpoint) ->
  addresses (imap f endpoints) = endpoints.
Proof.
  intros Hf. unfold addresses. rewrite fmap_imap.
  induction endpoints as [|e l IH] using rev_ind; [reflexivity|].
  rewrite imap_app. simpl. rewrite IH, Hf. reflexivity.
Qed.

(** What a refresh cycle does to the pools, whatever the network replies. *)
Lemma update_pools (w : World) :
  exists w' : World,
    updateHealthyConnections env w = (Ok tt, w') /\
    config w' = config w /\
    allConnections w' = allConnections w /\
    (healthyConnections w' = healthyConnections w \/
     exists (H : Z) (start : nat),
       healthyConnections w' =
         refreshed env H (maxBlockDelay (config w)) start
                   (allConnections w) (healthyConnections w)).
Proof.
  destruct (getSlot env (slot_calls w) (officialRpcEndpoint (config w)))
    as [H|] eqn:Hreply.
  - destruct (decide (H = 0)) as [->|Hnz].
    + destruct (update_skips env w (or_intror Hreply))
        as (w' & Hrun & (Hc & Ha & Hh) & _).
      exists w'. auto.
    + destruct (update_refreshes env w H Hreply Hnz)
        as (w' & Hrun & Hc & Ha & Hh & _).
      exists w'. eauto 10.
  - destruct (update_skips env w (or_introl Hreply))
      as (w' & Hrun & (Hc & Ha & Hh) & _).
    exists w'. auto.
Qed.

Lemma startHealthCheck_run (w : World) :
  exists w' : World,
    startHealthCheck w = (Ok tt, w') /\
    same_pools w w' /\
    healthCheckInterval w'
      = Some (timer_period (healthCheckIntervalMs (config w))).
Proof.
  unfold startHealthCheck, bind, gets, modify. rewrite log_run.
  eexists. split; [reflexivity|].
  match goal with |- context [logged ?l ?m ?x] =>
    pose proof (logged_counters l m x) as (_ & _ & _ & _ & Ht)
  end.
  split; [|rewrite Ht; reflexivity].
  eapply same_pools_trans; [|apply logged_same_pools].
  unfold same_pools; simpl; auto.
Qed.

Lemma stopHealthCheck_run (w : World) :
  exists w' : World, stopHealthCheck w = (Ok tt, w') /\ same_pools w w'.
Proof.
  unfold stopHealthCheck, bind, gets, modify.
  destruct (healthCheckInterval w).
  - rewrite log_run. eexists. split; [reflexivity|].
    eapply same_pools_trans; [|apply logged_same_pools].
    unfold same_pools; simpl; auto.
  - exists w. split; [reflexivity | apply same_pools_refl].
Qed.

Lemma dispose_run (w : World) :
  exists w' : World, dispose w = (Ok tt, w') /\ same_pools w w'.
Proof.
  unfold dispose, bind. destruct (stopHealthCheck_run w) as (w1 & -> & Hp).
  rewrite log_run. eexists. split; [reflexivity|].
  eapply same_pools_trans; [exact Hp | apply logged_same_pools].
Qed.

(** [initialize], when the constructor accepts every loaded endpoint, stores
    one connection per endpoint under the default network, runs a refresh
    cycle, arms the timer and returns normally; otherwise it rethrows the
    error of the constructor and leaves the pools and the timer as they
    were. *)
Lemma initialize_run (w : World) :
  match first_rejected env (loaded_endpoints env (config w)) with
  | None =>
      exists (connections : list Connection) (w' : World),
        initialize env w = (Ok tt, w') /\
        config w' = config w /\
        addresses connections = loaded_endpoints env (config w) /\
        (forall c, c ∈ connections -> commitment c = Some "confirmed") /\
        allConnections w' =
          JsMap.set (defaultNetwork (config w)) connections
                    (allConnections w) /\
        (healthyConnections w' = healthyConnections w \/
         exists (H : Z) (start : nat),
           healthyConnections w' =
             refreshed env H (maxBlockDelay (config w)) start
                       (allConnections w') (healthyConnections w)) /\
        healthCheckInterval w'
          = Some (timer_period (healthCheckIntervalMs (config w)))
  | Some endpoint =>
      exists w' : World,
        initialize env w = (Throw (TypeError (rejection env endpoint)), w') /\
        same_pools w w' /\
        healthCheckInterval w' = healthCheckInterval w /\
        slot_calls w' = slot_calls w
  end.
Proof.
  set (endpoints := loaded_endpoints env (config w)).
  pose proof (fun w1 => connect_all_run endpoints w1) as Hconn.
  assert (Hne : (length endpoints =? 0)%nat = false).
  { pose proof (loaded_endpoints_official (config w)) as Hin. fold endpoints in Hin.
    destruct endpoints; [inversion Hin | reflexivity]. }
  set (w0 := logged 3 "Initializing RPC connections..." w).
  pose proof (logged_same_pools 3 "Initializing RPC connections..." w)
    as (Hc0 & Ha0 & Hh0).
  pose proof (logged_counters 3 "Initializing RPC connections..." w)
    as (Hs0 & _ & _ & _ & Ht0).
  fold w0 in Hc0, Ha0, Hh0, Hs0, Ht0.
  destruct (loadRpcEndpoints_run w0)
    as (w1 & Hload & ((Hc1 & Ha1 & Hh1) & Ht1 & _ & Hs1 & _)).
  rewrite Hc0 in Hload. fold endpoints in Hload.
  specialize (Hconn w1).
  destruct (first_rejected env endpoints) as [bad|];
    unfold initialize; unfold bind at 1; rewrite log_run; fold w0;
    unfold try_catch; unfold bind at 1, gets at 1;
    unfold bind at 1; rewrite Hload, Hne; unfold bind at 1, ret at 1.
  - destruct Hconn as (n & Hconn).
    unfold bind at 1. rewrite Hconn. unfold bind, throw. rewrite log_run.
    match goal with |- context [logged ?l ?m ?x] =>
      pose proof (logged_same_pools l m x) as (Hc3 & Ha3 & Hh3);
      pose proof (logged_counters l m x) as (Hs3 & _ & _ & _ & Ht3);
      set (w3 := logged l m x) in *
    end.
    simpl in Hc3, Ha3, Hh3, Hs3, Ht3.
    exists w3. split; [reflexivity|].
    split; [unfold same_pools; repeat split; congruence|].
    split; congruence.
  - set (cs := imap (fun i endpoint =>
                       mkConnection endpoint (Some "confirmed") (objects w1 + i))
                    endpoints) in *.
    unfold bind at 1. rewrite Hconn.
    unfold bind at 1, modify at 1. unfold bind at 1. rewrite log_run.
    match goal with |- context [logged ?l ?m ?x] =>
      pose proof (logged_same_pools l m x) as (Hc3 & Ha3 & Hh3);
      set (w3 := logged l m x) in *
    end.
    simpl in Hc3, Ha3, Hh3.
    destruct (update_pools w3) as (w4 & Hupd & Hc4 & Ha4 & Hh4).
    unfold bind at 1. rewrite Hupd.
    destruct (startHealthCheck_run w4) as (w5 & Hstart & (Hc5 & Ha5 & Hh5) & Ht5).
    rewrite Hstart.
    assert (Hcfg : config w5 = config w) by congruence.
    assert (Hall : allConnections w5 =
                   JsMap.set (defaultNetwork (config w)) cs (allConnections w))
      by congruence.
    exists cs, w5. split; [reflexivity|].
    split; [exact Hcfg|].
    split; [apply addresses_imap; reflexivity|].
    split.
    { intros c Hin. unfold cs in Hin. apply elem_of_lookup_imap in Hin.
      destruct Hin as (i & e & -> & _). reflexivity. }
    split; [exact Hall|].
    split; [|rewrite Ht5; congruence].
    destruct Hh4 as [Hsame | (H & start & Href)].
    + left. congruence.
    + right. exists H, start. rewrite Hh5, Href, Hall.
      f_equal; congruence.
Qed.

(** Selection never changes the pools, whatever [Math.random] returns. *)
Lemma getConnection_same_pools (network : option string) (w : World) :
  same_pools w (snd (getConnection env network w)).
Proof.
  unfold getConnection, bind, gets, Math_random, rpcEndpoint_of, newConnection,
    ret, throw.
  repeat case_match;
    repeat match goal with
           | Hlog : log _ _ _ = _ |- _ => rewrite log_run in Hlog
           end;
    simplify_eq; simpl; pools.
Qed.

(** The retry loop never changes the pools. *)
Lemma retry_loop_same_pools {T : Type}
    (rpcMethod : nat -> Connection -> Settled T) (network : string)
    (maxRetries timeoutMs : Z) (fuel : nat) :
  forall (attempt : Z) (lastError : option Error) (w : World),
    same_pools w
      (snd (retry_loop env rpcMethod fuel network maxRetries timeoutMs
                       attempt lastError w)).
Proof.
  induction fuel as [|fuel IH]; intros attempt lastError w; cbn [retry_loop];
    destruct (attempt <? maxRetries).
  - apply same_pools_refl.
  - unfold bind, throw. rewrite log_run. simpl. pools.
  - pose proof (getConnection_same_pools (Some network) w) as Hsel.
    unfold bind at 1.
    destruct (getConnection env (Some network) w) as [[[c|]|e|] w0];
      simpl in Hsel; simpl; try exact Hsel.
    unfold bind at 1, race at 1.
    destruct (rpcMethod (rpc_calls w0) c) as [result|[message|text|what]|].
    + simpl. pools. exact Hsel.
    + unfold bind, to_Error, ret. rewrite log_run.
      eapply same_pools_trans; [|apply IH]. pools. exact Hsel.
    + unfold bind, to_Error, ret. rewrite log_run.
      eapply same_pools_trans; [|apply IH]. pools. exact Hsel.
    + simpl. pools. exact Hsel.
    + unfold bind. rewrite log_run.
      eapply same_pools_trans; [|apply IH]. pools. exact Hsel.
  - unfold bind, throw. rewrite log_run. simpl. pools.
Qed.

(** [executeWithRetry] is the loop, started at attempt 0 after the
    optional refresh cycle. *)
Lemma executeWithRetry_unfold {T : Type}
    (rpcMethod : nat -> Connection -> Settled T) (options : RetryOptions)
    (w : World) :
  let network := default (defaultNetwork (config w)) (o_network options) in
  let maxRetries :=
    default (defaultMaxRetries (config w)) (o_maxRetries options) in
  let timeoutMs :=
    default (defaultTimeoutMs (config w)) (o_timeoutMs options) in
  executeWithRetry env rpcMethod options w =
    retry_loop env rpcMethod (Z.to_nat maxRetries) network maxRetries
      timeoutMs 0 None
      (if default false (o_forceHealthCheck options)
       then snd (updateHealthyConnections env w) else w).
Proof.
  intros network maxRetries timeoutMs.
  unfold executeWithRetry, bind at 1, gets at 1.
  destruct (default false (o_forceHealthCheck options)).
  - destruct (update_pools w) as (w1 & Hupd & _).
    unfold bind. rewrite Hupd. reflexivity.
  - reflexivity.
Qed.

Lemma executeWithRetry_start {T : Type}
    (rpcMethod : nat -> Connection -> Settled T) (options : RetryOptions)
    (w : World) :
  executeWithRetry env rpcMethod options w =
    retry_loop env rpcMethod
      (Z.to_nat (default (defaultMaxRetries (config w)) (o_maxRetries options)))
      (default (defaultNetwork (config w)) (o_network options))
      (default (defaultMaxRetries (config w)) (o_maxRetries options))
      (default (defaultTimeoutMs (config w)) (o_timeoutMs options))
      0 None (attempts_start env options w).
Proof. apply executeWithRetry_unfold. Qed.

Lemma attempts_start_counters (options : RetryOptions) (w : World) :
  rpc_calls (attempts_start env options w) = rpc_calls w /\
  random_calls (attempts_start env options w) = random_calls w.
Proof.
  unfold attempts_start.
  destruct (default false (o_forceHealthCheck options)); [|auto].
  destruct (update_returns env w) as (w1 & -> & _ & _ & Hr & Hk). auto.
Qed.

Lemma executeWithRetry_pools {T : Type}
    (rpcMethod : nat -> Connection -> Settled T) (options : RetryOptions)
    (w : World) :
  let w' := snd (executeWithRetry env rpcMethod options w) in
  config w' = config w /\
  allConnections w' = allConnections w /\
  (healthyConnections w' = healthyConnections w \/
   exists (H : Z) (start : nat),
     healthyConnections w' =
       refreshed env H (maxBlockDelay (config w)) start
                 (allConnections w) (healthyConnections w)).
Proof.
  rewrite executeWithRetry_unfold.
  match goal with |- context [retry_loop env rpcMethod ?f ?n ?m ?t ?a ?l ?x] =>
    pose proof (retry_loop_same_pools rpcMethod n m t f a l x) as (Hc & Ha & Hh)
  end.
  cbv zeta. rewrite Hc, Ha, Hh.
  destruct (default false (o_forceHealthCheck options)); [|auto].
  destruct (update_pools w) as (w1 & -> & Hc1 & Ha1 & Hh1). simpl. auto.
Qed.

(** *** The invariant *)

Lemma pool_invariant_same_pools (w w' : World) :
  same_pools w w' -> pool_invariant env w -> pool_invariant env w'.
Proof.
  intros (Hc & Ha & Hh) (cs & hs & Hall & Hhealthy & Hsub & Hloaded).
  exists cs, hs. rewrite Hc, Ha, Hh. auto.
Qed.

Lemma pool_invariant_refreshed (w w' : World) (H : Z) (start : nat) :
  config w' = config w ->
  allConnections w' = allConnections w ->
  healthyConnections w' =
    refreshed env H (maxBlockDelay (config w)) start
              (allConnections w) (healthyConnections w) ->
  pool_invariant env w -> pool_invariant env w'.
Proof.
  intros Hc Ha Hh (cs & hs & Hall & Hhealthy & Hsub & Hloaded).
  exists cs, (healthy_subset env H (maxBlockDelay (config w)) start cs).
  rewrite Hc, Ha, Hh, Hall, Hhealthy. simpl.
  rewrite decide_True by reflexivity.
  split; [reflexivity|]. split; [reflexivity|]. split; [|exact Hloaded].
  apply sublist_subseteq. unfold addresses. apply fmap_sublist, healthy_subset_sublist.
Qed.

Lemma pool_invariant_constructor (overrides : PartialConfig) :
  pool_invariant env (constructor overrides).
Proof.
  unfold constructor. rewrite log_run.
  eapply pool_invariant_same_pools; [apply logged_same_pools|].
  exists [], []. simpl. auto.
Qed.

Lemma pool_invariant_initialize (w : World) :
  pool_invariant env w -> pool_invariant env (snd (initialize env w)).
Proof.
  intros Hinv. pose proof (initialize_run w) as Hrun.
  destruct (first_rejected env (loaded_endpoints env (config w))) as [bad|].
  { destruct Hrun as (w' & -> & Hp & _).
    eapply pool_invariant_same_pools; [exact Hp | exact Hinv]. }
  destruct Hinv as (cs & hs & Hall & Hhealthy & Hsub & Hloaded).
  destruct Hrun as (cs' & w' & Hrun & Hc & Haddr & _ & Ha & Hh & _).
  rewrite Hrun. simpl.
  rewrite Hall in Ha. simpl in Ha. rewrite decide_True in Ha by reflexivity.
  destruct Hh as [Hsame | (H & start & Href)].
  - exists cs', hs. rewrite Hc, Ha, Hsame, Hhealthy.
    split; [reflexivity|]. split; [reflexivity|]. split; [|right; exact Haddr].
    destruct Hloaded as [-> | Hl].
    + intros x Hx. apply Hsub in Hx. inversion Hx.
    + rewrite Haddr, <- Hl. exact Hsub.
  - exists cs', (healthy_subset env H (maxBlockDelay (config w)) start cs').
    rewrite Hc, Href, Ha, Hhealthy. simpl.
    rewrite decide_True by reflexivity.
    split; [reflexivity|]. split; [reflexivity|]. split; [|right; exact Haddr].
    apply sublist_subseteq. unfold addresses. apply fmap_sublist, healthy_subset_sublist.
Qed.

Lemma pool_invariant_call (call : Call) (w : World) :
  pool_invariant env w -> pool_invariant env (run_call env call w).
Proof.
  intros Hinv. destruct call as [| |network|T rpcMethod options| |]; simpl.
  - apply pool_invariant_initialize, Hinv.
  - destruct (update_pools w) as (w' & -> & Hc & Ha & [Hh | (H & start & Hh)]).
    + eapply pool_invariant_same_pools; [|exact Hinv]. unfold same_pools. auto.
    + eapply pool_invariant_refreshed; eauto.
  - eapply pool_invariant_same_pools; [apply getConnection_same_pools | exact Hinv].
  - destruct (executeWithRetry_pools rpcMethod options w)
      as (Hc & Ha & [Hh | (H & start & Hh)]).
    + eapply pool_invariant_same_pools; [|exact Hinv]. unfold same_pools. auto.
    + eapply pool_invariant_refreshed; eauto.
  - destruct (stopHealthCheck_run w) as (w' & -> & Hp).
    eapply pool_invariant_same_pools; [exact Hp | exact Hinv].
  - destruct (dispose_run w) as (w' & -> & Hp).
    eapply pool_invariant_same_pools; [exact Hp | exact Hinv].
Qed.

Lemma reachable_pool_invariant (w : World) :
  reachable env w -> pool_invariant env w.
Proof.
  induction 1 as [overrides | call w _ IH].
  - apply pool_invariant_constructor.
  - apply pool_invariant_call, IH.
Qed.

End Lifecycle.

(** ** Properties of the manager *)

Lemma env_live_random_contract : random_contract env_live.
Proof. apply scenario_random_contract; [discriminate | reflexivity]. Qed.

(** C1.  The claim asks that whenever the reference query succeeds with a
    height H the healthy list becomes the order-preserving filter of the
    configured endpoints.  On a freshly started cluster, where the reference
    endpoint reports height 0, the cycle is skipped instead: the manager
    created with the default configuration has the reference endpoint
    configured, that endpoint answers its own query with a delta of 0, which
    is within the delay, and yet the healthy list stays empty after the
    refresh of [initialize] and after one more refresh.  (For every height
    other than 0 the list is the filter: [refresh_classifies].) *)
Theorem refresh_skipped_at_reference_height_zero :
  let w := snd (createRpcManager env_genesis no_overrides) in
  getSlot env_genesis (slot_calls w) (officialRpcEndpoint (config w)) = Some 0 /\
  all_of mainnet w = [mkConnection official (Some "confirmed") 0] /\
  healthy_subset env_genesis 0 (maxBlockDelay (config w)) (S (slot_calls w))
                 (all_of mainnet w) = all_of mainnet w /\
  healthy_of mainnet w = [] /\
  healthy_of mainnet (snd (updateHealthyConnections env_genesis w)) = [].
Proof. vm_compute. repeat split; reflexivity. Qed.

(** C2.  When the reference endpoint's height query fails, the refresh cycle
    returns normally (nothing is thrown to the caller), makes no further
    height query, and leaves the healthy map, hence the healthy list of every
    network, and the configured endpoints exactly as they were. *)
Theorem reference_failure_keeps_healthy (env : Env) (w : World) :
  getSlot env (slot_calls w) (officialRpcEndpoint (config w)) = None ->
  exists w' : World,
    updateHealthyConnections env w = (Ok tt, w') /\
    healthyConnections w' = healthyConnections w /\
    (forall network, healthy_of network w' = healthy_of network w) /\
    allConnections w' = allConnections w /\
    slot_calls w' = S (slot_calls w).
Proof.
  intros Hreply.
  destruct (update_skips env w (or_introl Hreply))
    as (w' & Hrun & (_ & Ha & Hh) & Hs & _).
  exists w'. split; [exact Hrun|]. split; [exact Hh|].
  split; [intros network; unfold healthy_of; rewrite Hh; reflexivity|].
  split; [exact Ha | exact Hs].
Qed.

Lemma reference_failure_keeps_healthy_witness :
  exists w' : World,
    updateHealthyConnections env_down world_two_healthy = (Ok tt, w') /\
    healthyConnections w' = healthyConnections world_two_healthy /\
    (forall network,
       healthy_of network w' = healthy_of network world_two_healthy) /\
    allConnections w' = allConnections world_two_healthy /\
    slot_calls w' = S (slot_calls world_two_healthy).
Proof. apply (reference_failure_keeps_healthy env_down world_two_healthy). reflexivity. Defined.

(** C3.  The claim asks that [getConnection] hand out a connection in every
    state.  A manager constructed with the reference address
    [localhost:8899] has no healthy and no configured endpoint, so
    [getConnection] reaches its third tier, where the constructor of
    [Connection] throws for this address: the call throws a [TypeError]
    and returns nothing. *)
Lemma getConnection_throws_for_rejected_reference :
  healthy_of mainnet (constructor overrides_no_scheme) = [] /\
  all_of mainnet (constructor overrides_no_scheme) = [] /\
  fst (getConnection env_live None (constructor overrides_no_scheme))
    = Throw (TypeError "Endpoint URL must start with `http:` or `https:`.").
Proof. vm_compute. repeat split; reflexivity. Qed.

(** C3, as amended.  [getConnection] follows the three tiers: it returns a
    member of the healthy list when that list is not empty; otherwise a
    member of the configured endpoints when there are any (never "none",
    also when every configured endpoint is unhealthy); otherwise it calls
    the constructor for a new connection to the reference endpoint, and
    returns that connection, which is not added to the pools, when the
    constructor accepts the reference address, and throws the
    constructor's [TypeError] when it does not. *)
Theorem getConnection_three_tiers (env : Env) (network : option string)
    (w : World) :
  random_contract env ->
  exists (r : Res (option Connection)) (w' : World),
    getConnection env network w = (r, w') /\
    same_pools w w' /\
    (healthy_of (default (defaultNetwork (config w)) network) w <> [] ->
       exists c : Connection,
         r = Ok (Some c) /\
         c ∈ healthy_of (default (defaultNetwork (config w)) network) w) /\
    (healthy_of (default (defaultNetwork (config w)) network) w = [] ->
     all_of (default (defaultNetwork (config w)) network) w <> [] ->
       exists c : Connection,
         r = Ok (Some c) /\
         c ∈ all_of (default (defaultNetwork (config w)) network) w) /\
    (healthy_of (default (defaultNetwork (config w)) network) w = [] ->
     all_of (default (defaultNetwork (config w)) network) w = [] ->
       (accepts env (officialRpcEndpoint (config w)) = true ->
          r = Ok (Some (mkConnection (officialRpcEndpoint (config w)) None
                                     (objects w))) /\
          objects w' = S (objects w)) /\
       (accepts env (officialRpcEndpoint (config w)) = false ->
          r = Throw (TypeError
                       (rejection env (officialRpcEndpoint (config w)))) /\
          objects w' = objects w)).
Proof.
  intros Hrandom.
  destruct (selectable_or_not env (default (defaultNetwork (config w)) network) w)
    as [Hsel | (Hh & Ha & Hacc)].
  - destruct (getConnection_run env network w Hrandom Hsel)
      as (c & w' & Hrun & Hp & _ & _ & _ & H1 & H2 & H3).
    exists (Ok (Some c)), w'. split; [exact Hrun|]. split; [exact Hp|].
    split; [intros Hne; exists c; split; [reflexivity | apply H1, Hne]|].
    split.
    { intros He Hne. exists c. split; [reflexivity | apply H2; assumption]. }
    intros He Hae. destruct (H3 He Hae) as [-> Ho]. split.
    + intros _. split; [reflexivity | exact Ho].
    + intros Hacc. destruct Hsel as [Hsel | [Hsel | Hsel]]; congruence.
  - destruct (getConnection_tier3 env network w Hh Ha)
      as (w' & Hrun & Hp & _ & _ & _ & Ho).
    rewrite Hacc in Hrun, Ho.
    eexists _, w'. split; [exact Hrun|]. split; [exact Hp|].
    split; [intros Hne; contradiction|].
    split; [intros _ Hne; contradiction|].
    intros _ _. split; [congruence|]. intros _. split; [reflexivity | exact Ho].
Qed.

Lemma getConnection_three_tiers_witness :
  (exists c : Connection,
     fst (getConnection env_live None world_two_healthy) = Ok (Some c) /\
     c ∈ healthy_of mainnet world_two_healthy) /\
  (exists c : Connection,
     fst (getConnection env_live None world_none_healthy) = Ok (Some c) /\
     c ∈ all_of mainnet world_none_healthy) /\
  fst (getConnection env_live None (constructor no_overrides))
    = Ok (Some (mkConnection official None 0)) /\
  fst (getConnection env_live None (constructor overrides_no_scheme))
    = Throw (TypeError "Endpoint URL must start with `http:` or `https:`.").
Proof.
  split; [|split; [|split]].
  - destruct (getConnection_three_tiers env_live None world_two_healthy
                env_live_random_contract)
      as (r & w' & Hrun & _ & H1 & _).
    destruct H1 as (c & Hr & Hin); [vm_compute; discriminate|].
    exists c. rewrite Hrun. split; [exact Hr | exact Hin].
  - destruct (getConnection_three_tiers env_live None world_none_healthy
                env_live_random_contract)
      as (r & w' & Hrun & _ & _ & H2 & _).
    destruct H2 as (c & Hr & Hin); [reflexivity | vm_compute; discriminate|].
    exists c. rewrite Hrun. split; [exact Hr | exact Hin].
  - destruct (getConnection_three_tiers env_live None (constructor no_overrides)
                env_live_random_contract)
      as (r & w' & Hrun & _ & _ & _ & H3).
    destruct H3 as [H3 _]; [reflexivity | reflexivity |].
    destruct H3 as [Hr _]; [reflexivity|].
    rewrite Hrun. exact Hr.
  - destruct (getConnection_three_tiers env_live None
                (constructor overrides_no_scheme) env_live_random_contract)
      as (r & w' & Hrun & _ & _ & _ & H3).
    destruct H3 as [_ H3]; [reflexivity | reflexivity |].
    destruct H3 as [Hr _]; [reflexivity|].
    rewrite Hrun. exact Hr.
Defined.

(** C4.  The claim asks for exactly n attempts whenever the operation fails
    on every attempt.  With three retries and an operation that always
    times out, a manager constructed with the reference address
    [localhost:8899] makes no attempt at all: [getConnection], called
    outside the [try], throws the [TypeError] of the constructor.  And on a
    manager with healthy endpoints, an operation that is always rejected
    with an object that has no string conversion is invoked once: the
    conversion [String(error)] in the [catch] block throws, which ends the
    call. *)
Lemma executeWithRetry_fewer_attempts :
  fst (executeWithRetry env_live always_times_out three_retries
         (constructor overrides_no_scheme))
    = Throw (TypeError "Endpoint URL must start with `http:` or `https:`.") /\
  rpc_calls (snd (executeWithRetry env_live always_times_out three_retries
                    (constructor overrides_no_scheme))) = 0%nat /\
  fst (executeWithRetry env_live always_unprintable three_retries
         world_two_healthy)
    = Throw (TypeError "Cannot convert object to primitive value") /\
  rpc_calls (snd (executeWithRetry env_live always_unprintable three_retries
                    world_two_healthy)) = 1%nat.
Proof. vm_compute. repeat split; reflexivity. Qed.

(** C4, as amended.  Let the attempts start in a state where
    [getConnection] has something to hand out for the network (a healthy or
    a configured endpoint, or a reference address the constructor accepts),
    and let every invocation of the operation on a connection that can be
    handed out fail by timing out, by rejecting with an [Error], or by
    rejecting with a value that converts to a string.  Then with a positive
    [maxRetries] of n, [executeWithRetry] invokes the operation exactly n
    times (not n + 1) and throws the failure of the last invocation: the
    [Error] it was rejected with, [new Error(String(value))] for another
    value, the timeout error when it timed out. *)
Theorem executeWithRetry_exhausts_attempts (env : Env) (T : Type)
    (rpcMethod : nat -> Connection -> Settled T) (options : RetryOptions)
    (w : World) :
  random_contract env ->
  0 < default (defaultMaxRetries (config w)) (o_maxRetries options) ->
  selectable env (default (defaultNetwork (config w)) (o_network options))
             (attempts_start env options w) ->
  (forall k c,
     candidate (default (defaultNetwork (config w)) (o_network options))
               (attempts_start env options w) c ->
     is_failure (rpcMethod k c)) ->
  exists (e : Error) (w' : World) (c : Connection),
    executeWithRetry env rpcMethod options w = (Throw e, w') /\
    Z.of_nat (rpc_calls w') =
      Z.of_nat (rpc_calls w)
      + default (defaultMaxRetries (config w)) (o_maxRetries options) /\
    candidate (default (defaultNetwork (config w)) (o_network options))
              (attempts_start env options w) c /\
    match rpcMethod (rpc_calls w' - 1)%nat c with
    | Rejected (ReasonError message) => e = CallerError message
    | Rejected (ReasonValue text) => e = StringifiedError text
    | TimedOut =>
        e = TimeoutError
              (default (defaultTimeoutMs (config w)) (o_timeoutMs options))
    | Fulfilled _ | Rejected (ReasonNoString _) => False
    end.
Proof.
  intros Hrandom Hpos Hsel Hfail.
  rewrite executeWithRetry_start.
  set (n := default (defaultMaxRetries (config w)) (o_maxRetries options)) in *.
  destruct (attempts_start_counters env options w) as (Hk1 & _).
  destruct (retry_loop_all_fail env Hrandom rpcMethod
              (default (defaultNetwork (config w)) (o_network options)) n
              (default (defaultTimeoutMs (config w)) (o_timeoutMs options))
              (Z.to_nat n) (Z.to_nat n) 0 None (attempts_start env options w))
    as (e & w' & Hrun & _ & Hk & Hlast).
  { f_equal. lia. }
  { lia. }
  { exact Hsel. }
  { exact Hfail. }
  destruct (Z.to_nat n) as [|m] eqn:Hn; [lia|].
  destruct Hlast as (c & Hcand & Hc).
  exists e, w', c. split; [exact Hrun|]. split; [lia|].
  split; [exact Hcand|].
  destruct (rpcMethod (rpc_calls w' - 1)%nat c) as [result|[message|text|what]|];
    simpl in Hc; congruence.
Qed.

Lemma executeWithRetry_exhausts_attempts_witness :
  exists (e : Error) (w' : World) (c : Connection),
    executeWithRetry env_live always_times_out three_retries world_two_healthy
      = (Throw e, w') /\
    Z.of_nat (rpc_calls w') =
      Z.of_nat (rpc_calls world_two_healthy)
      + default (defaultMaxRetries (config world_two_healthy))
                (o_maxRetries three_retries) /\
    candidate (default (defaultNetwork (config world_two_healthy))
                       (o_network three_retries))
              (attempts_start env_live three_retries world_two_healthy) c /\
    match always_times_out (rpc_calls w' - 1)%nat c with
    | Rejected (ReasonError message) => e = CallerError message
    | Rejected (ReasonValue text) => e = StringifiedError text
    | TimedOut =>
        e = TimeoutError
              (default (defaultTimeoutMs (config world_two_healthy))
                       (o_timeoutMs three_retries))
    | Fulfilled _ | Rejected (ReasonNoString _) => False
    end.
Proof.
  apply (executeWithRetry_exhausts_attempts env_live Z always_times_out
           three_retries world_two_healthy).
  - exact env_live_random_contract.
  - reflexivity.
  - left. vm_compute. discriminate.
  - intros k c _. exact I.
Defined.

(** C5.  In every state a manager goes through (after construction, after
    [initialize], after any sequence of refresh cycles and of the other
    calls), the healthy list of every network holds only addresses of that
    network's configured endpoints. *)
Theorem healthy_endpoints_within_all (env : Env) (w : World) :
  reachable env w ->
  forall network : string,
    addresses (healthy_of network w) ⊆ addresses (all_of network w).
Proof.
  intros Hreach network.
  destruct (reachable_pool_invariant env w Hreach)
    as (cs & hs & Hall & Hhealthy & Hsub & _).
  unfold healthy_of, all_of. rewrite Hall, Hhealthy. simpl.
  destruct (decide (defaultNetwork (config w) = network)); simpl.
  - exact Hsub.
  - intros x Hx. exact Hx.
Qed.

Lemma healthy_endpoints_within_all_witness :
  addresses (healthy_of mainnet
               (run_call env_live CallUpdateHealthyConnections
                  (run_call env_live CallInitialize
                     (constructor overrides_custom))))
  ⊆ addresses (all_of mainnet
                 (run_call env_live CallUpdateHealthyConnections
                    (run_call env_live CallInitialize
                       (constructor overrides_custom)))).
Proof.
  apply (healthy_endpoints_within_all env_live
           (run_call env_live CallUpdateHealthyConnections
              (run_call env_live CallInitialize (constructor overrides_custom)))
           (reachable_call env_live _ _
              (reachable_call env_live _ _ (reachable_new env_live _)))
           mainnet).
Defined.

(** C6.  The claim asks that the success of attempt 2 be returned whenever
    attempt 1 fails.  With three retries and an operation that is rejected
    once and then answers 42, a manager constructed with the reference
    address [localhost:8899] throws the [TypeError] of the constructor
    before any attempt.  And on a manager with healthy endpoints, when the
    first rejection is an object that has no string conversion, the
    conversion [String(error)] throws and there is no second attempt. *)
Lemma executeWithRetry_no_second_attempt :
  fst (executeWithRetry env_live fails_once three_retries
         (constructor overrides_no_scheme))
    = Throw (TypeError "Endpoint URL must start with `http:` or `https:`.") /\
  rpc_calls (snd (executeWithRetry env_live fails_once three_retries
                    (constructor overrides_no_scheme))) = 0%nat /\
  fst (executeWithRetry env_live fails_once_unprintable three_retries
         world_two_healthy)
    = Throw (TypeError "Cannot convert object to primitive value") /\
  rpc_calls (snd (executeWithRetry env_live fails_once_unprintable
                    three_retries world_two_healthy)) = 1%nat.
Proof. vm_compute. repeat split; reflexivity. Qed.

(** C6, as amended.  Let the attempts start in a state where
    [getConnection] has something to hand out for the network, let the
    first k invocations of the operation, on whatever connection can be
    handed out, fail by timing out, by rejecting with an [Error] or by
    rejecting with a value that converts to a string, and let invocation
    k + 1 succeed, with k + 1 within [maxRetries].  Then
    [executeWithRetry] returns the result of that invocation and the
    operation has been invoked exactly k + 1 times: no further attempt is
    made.  With k = 1 and [maxRetries] at least 2: a failure on attempt 1
    and a success on attempt 2 return the result of attempt 2 after two
    invocations. *)
Theorem executeWithRetry_returns_first_success (env : Env) (T : Type)
    (rpcMethod : nat -> Connection -> Settled T) (options : RetryOptions)
    (w : World) (k : nat) (result : T) :
  random_contract env ->
  Z.of_nat k < default (defaultMaxRetries (config w)) (o_maxRetries options) ->
  selectable env (default (defaultNetwork (config w)) (o_network options))
             (attempts_start env options w) ->
  (forall j c,
     (j < k)%nat ->
     candidate (default (defaultNetwork (config w)) (o_network options))
               (attempts_start env options w) c ->
     is_failure (rpcMethod (rpc_calls w + j)%nat c)) ->
  (forall c,
     candidate (default (defaultNetwork (config w)) (o_network options))
               (attempts_start env options w) c ->
     rpcMethod (rpc_calls w + k)%nat c = Fulfilled result) ->
  exists w' : World,
    executeWithRetry env rpcMethod options w = (Ok result, w') /\
    rpc_calls w' = (rpc_calls w + k + 1)%nat.
Proof.
  intros Hrandom Hlt Hsel Hfail Hok.
  rewrite executeWithRetry_start.
  set (n := default (defaultMaxRetries (config w)) (o_maxRetries options)) in *.
  destruct (attempts_start_counters env options w) as (Hk1 & _).
  destruct (retry_loop_first_success env Hrandom rpcMethod
              (default (defaultNetwork (config w)) (o_network options)) n
              (default (defaultTimeoutMs (config w)) (o_timeoutMs options))
              result k (Z.to_nat n) 0 None (attempts_start env options w))
    as (w' & Hrun & _ & Hk).
  { lia. }
  { rewrite Z.sub_0_r. lia. }
  { exact Hsel. }
  { intros j c Hj Hc. rewrite Hk1. apply Hfail; assumption. }
  { intros c Hc. rewrite Hk1. apply Hok, Hc. }
  exists w'. split; [exact Hrun | congruence].
Qed.

Lemma executeWithRetry_returns_first_success_witness :
  exists w' : World,
    executeWithRetry env_live fails_once three_retries world_two_healthy
      = (Ok 42, w') /\
    rpc_calls w' = (rpc_calls world_two_healthy + 1 + 1)%nat.
Proof.
  apply (executeWithRetry_returns_first_success env_live Z fails_once
           three_retries world_two_healthy 1 42).
  - exact env_live_random_contract.
  - reflexivity.
  - left. vm_compute. discriminate.
  - intros j c Hj _. assert (j = 0%nat) as -> by lia. exact I.
  - intros c _. reflexivity.
Defined.

(** C7.  The claim asks that every entry of the hosts file that lacks a
    scheme prefix be given the prefix of the unencrypted scheme.  The code
    tests [startsWith('http')], so a host whose name begins with these four
    letters is taken over as it is: with the hosts file
    [["httpbin.org:8899", "10.0.0.7:8899"]] the endpoint list holds
    [httpbin.org:8899] without a scheme, next to [http://10.0.0.7:8899].
    The rest of the claim holds: no address twice, and the reference
    endpoint a member ([loaded_endpoints_NoDup], [loaded_endpoints_official]). *)
Theorem loadRpcEndpoints_keeps_host_starting_with_http :
  fst (loadRpcEndpoints env_live (constructor overrides_live))
    = Ok ["https://a.example"; "https://b.example"; "https://c.example";
          "httpbin.org:8899"; "http://10.0.0.7:8899"; official] /\
  normalize_host "httpbin.org:8899" = "httpbin.org:8899" /\
  normalize_host "10.0.0.7:8899" = "http://10.0.0.7:8899" /\
  String.prefix "http://" "httpbin.org:8899" = false /\
  String.prefix "https://" "httpbin.org:8899" = false.
Proof. vm_compute. repeat split; reflexivity. Qed.

(** C8.  The claim asks that [getConnection] return a connection for every
    network and every state.  On a manager constructed with the reference
    address [localhost:8899], and asked for a network it does not know,
    the last resort itself fails: the constructor of [Connection] throws a
    [TypeError], and so does [getConnection]. *)
Lemma getConnection_last_resort_throws :
  fst (getConnection env_live (Some "devnet") (constructor overrides_no_scheme))
    = Throw (TypeError "Endpoint URL must start with `http:` or `https:`.").
Proof. vm_compute. reflexivity. Qed.

(** C8, as amended.  Whatever the network name and the state of the
    manager, [getConnection] never returns [null]: it returns a connection,
    or, only when the network has no healthy and no configured endpoint and
    the constructor does not accept the reference address, it throws the
    constructor's [TypeError]; when the network has no entry at all (an
    unknown network, say) and the constructor accepts the reference
    address, the connection is a new one to the reference endpoint.
    Consequently [executeWithRetry] always ends by returning a result or by
    throwing an error other than the one of its [!connection] branch. *)
Theorem getConnection_never_null (env : Env) :
  random_contract env ->
  (forall (network : option string) (w : World),
     exists (r : Res (option Connection)) (w' : World),
       getConnection env network w = (r, w') /\
       ((exists c : Connection, r = Ok (Some c)) \/
        (r = Throw (TypeError (rejection env (officialRpcEndpoint (config w)))) /\
         healthy_of (default (defaultNetwork (config w)) network) w = [] /\
         all_of (default (defaultNetwork (config w)) network) w = [] /\
         accepts env (officialRpcEndpoint (config w)) = false)) /\
       (JsMap.get (default (defaultNetwork (config w)) network)
                  (healthyConnections w) = None ->
        JsMap.get (default (defaultNetwork (config w)) network)
                  (allConnections w) = None ->
        accepts env (officialRpcEndpoint (config w)) = true ->
        r = Ok (Some (mkConnection (officialRpcEndpoint (config w)) None
                                   (objects w))))) /\
  (forall (T : Type) (rpcMethod : nat -> Connection -> Settled T)
          (options : RetryOptions) (w : World),
     exists w' : World,
       (exists result : T,
          executeWithRetry env rpcMethod options w = (Ok result, w')) \/
       (exists e : Error,
          executeWithRetry env rpcMethod options w = (Throw e, w') /\
          forall network, e <> NoConnectionsError network)).
Proof.
  intros Hrandom. split.
  - intros network w.
    destruct (selectable_or_not env
                (default (defaultNetwork (config w)) network) w)
      as [Hsel | (Hh & Ha & Hacc)].
    + destruct (getConnection_run env network w Hrandom Hsel)
        as (c & w' & Hrun & _ & _ & _ & _ & _ & _ & H3).
      exists (Ok (Some c)), w'. split; [exact Hrun|].
      split; [left; exists c; reflexivity|].
      intros Hh Ha _. destruct H3 as [-> _]; [| |reflexivity].
      * unfold healthy_of. rewrite Hh. reflexivity.
      * unfold all_of. rewrite Ha. reflexivity.
    + destruct (getConnection_tier3 env network w Hh Ha) as (w' & Hrun & _).
      rewrite Hacc in Hrun.
      eexists _, w'. split; [exact Hrun|].
      split; [right; auto|]. intros _ _ Hacc'. congruence.
  - intros T rpcMethod options w.
    rewrite executeWithRetry_unfold. cbv zeta.
    apply retry_loop_outcome; [exact Hrandom | lia | discriminate].
Qed.

Lemma getConnection_never_null_witness :
  (forall (network : option string) (w : World),
     exists (r : Res (option Connection)) (w' : World),
       getConnection env_live network w = (r, w') /\
       ((exists c : Connection, r = Ok (Some c)) \/
        (r = Throw (TypeError
                      (rejection env_live (officialRpcEndpoint (config w)))) /\
         healthy_of (default (defaultNetwork (config w)) network) w = [] /\
         all_of (default (defaultNetwork (config w)) network) w = [] /\
         accepts env_live (officialRpcEndpoint (config w)) = false)) /\
       (JsMap.get (default (defaultNetwork (config w)) network)
                  (healthyConnections w) = None ->
        JsMap.get (default (defaultNetwork (config w)) network)
                  (allConnections w) = None ->
        accepts env_live (officialRpcEndpoint (config w)) = true ->
        r = Ok (Some (mkConnection (officialRpcEndpoint (config w)) None
                                   (objects w))))) /\
  (forall (T : Type) (rpcMethod : nat -> Connection -> Settled T)
          (options : RetryOptions) (w : World),
     exists w' : World,
       (exists result : T,
          executeWithRetry env_live rpcMethod options w = (Ok result, w')) \/
       (exists e : Error,
          executeWithRetry env_live rpcMethod options w = (Throw e, w') /\
          forall network, e <> NoConnectionsError network)).
Proof.
  apply (getConnection_never_null env_live).
  exact env_live_random_contract.
Defined.

(** C9.  When the reference endpoint's height query succeeds with height 0,
    the refresh cycle is skipped as it is for a failed query: it returns
    normally, makes no further height query, and leaves the healthy map,
    hence the healthy list of every network, unchanged. *)
Theorem reference_height_zero_skips_refresh (env : Env) (w : World) :
  getSlot env (slot_calls w) (officialRpcEndpoint (config w)) = Some 0 ->
  exists w' : World,
    updateHealthyConnections env w = (Ok tt, w') /\
    healthyConnections w' = healthyConnections w /\
    (forall network, healthy_of network w' = healthy_of network w) /\
    allConnections w' = allConnections w /\
    slot_calls w' = S (slot_calls w).
Proof.
  intros Hreply.
  destruct (update_skips env w (or_intror Hreply))
    as (w' & Hrun & (_ & Ha & Hh) & Hs & _).
  exists w'. split; [exact Hrun|]. split; [exact Hh|].
  split; [intros network; unfold healthy_of; rewrite Hh; reflexivity|].
  split; [exact Ha | exact Hs].
Qed.

Lemma reference_height_zero_skips_refresh_witness :
  exists w' : World,
    updateHealthyConnections env_genesis world_two_healthy = (Ok tt, w') /\
    healthyConnections w' = healthyConnections world_two_healthy /\
    (forall network,
       healthy_of network w' = healthy_of network world_two_healthy) /\
    allConnections w' = allConnections world_two_healthy /\
    slot_calls w' = S (slot_calls world_two_healthy).
Proof.
  apply (reference_height_zero_skips_refresh env_genesis world_two_healthy).
  reflexivity.
Defined.

(** C10.  With [maxRetries] zero or negative, [executeWithRetry] makes no
    attempt: after the optional refresh cycle it writes one log line and
    throws the error "RPC call failed after multiple retries"; the operation
    is not invoked, no random number is drawn and no endpoint is selected. *)
Theorem executeWithRetry_without_attempts (env : Env) (T : Type)
    (rpcMethod : nat -> Connection -> Settled T) (options : RetryOptions)
    (w : World) :
  default (defaultMaxRetries (config w)) (o_maxRetries options) <= 0 ->
  executeWithRetry env rpcMethod options w
    = (Throw RetriesFailedError,
       logged 1 "All RPC retries failed"
         (if default false (o_forceHealthCheck options)
          then snd (updateHealthyConnections env w) else w)) /\
  manager_message RetriesFailedError
    = Some "RPC call failed after multiple retries" /\
  rpc_calls (snd (executeWithRetry env rpcMethod options w)) = rpc_calls w /\
  random_calls (snd (executeWithRetry env rpcMethod options w))
    = random_calls w.
Proof.
  intros Hle.
  rewrite executeWithRetry_unfold. cbv zeta.
  rewrite retry_loop_exit by lia. simpl.
  split; [reflexivity|]. split; [reflexivity|].
  match goal with |- context [logged ?l ?m ?x] =>
    pose proof (logged_counters l m x) as (_ & Hr & Hk & _)
  end.
  rewrite Hr, Hk.
  destruct (default false (o_forceHealthCheck options)); [|auto].
  destruct (update_returns env w) as (w1 & -> & _ & _ & Hr1 & Hk1). simpl. auto.
Qed.

Lemma executeWithRetry_without_attempts_witness :
  executeWithRetry env_live always_times_out zero_retries world_two_healthy
    = (Throw RetriesFailedError,
       logged 1 "All RPC retries failed"
         (if default false (o_forceHealthCheck zero_retries)
          then snd (updateHealthyConnections env_live world_two_healthy)
          else world_two_healthy)) /\
  manager_message RetriesFailedError
    = Some "RPC call failed after multiple retries" /\
  rpc_calls (snd (executeWithRetry env_live always_times_out zero_retries
                    world_two_healthy))
    = rpc_calls world_two_healthy /\
  random_calls (snd (executeWithRetry env_live always_times_out zero_retries
                       world_two_healthy))
    = random_calls world_two_healthy.
Proof.
  apply (executeWithRetry_without_attempts env_live Z always_times_out
           zero_retries world_two_healthy).
  vm_compute. discriminate.
Defined.


(** ** Further properties: loading the endpoint list *)

Lemma foldl_set_add_elem (l s : list string) (y : string) :
  y ∈ foldl (fun s endpoint => set_add endpoint s) s l <-> y ∈ s \/ y ∈ l.
Proof.
  revert s. induction l as [|x l IH]; intros s; simpl.
  - split; [auto|]. intros [?|Hin]; [assumption | inversion Hin].
  - rewrite IH, set_add_elem, elem_of_cons. tauto.
Qed.

Lemma add_hosts_strings (hosts : list string) (s : list string) :
  add_hosts (JStr <$> hosts) s
    = (Ok tt, foldl (fun s endpoint => set_add endpoint s) s
                    (normalize_host <$> hosts)).
Proof.
  revert s. induction hosts as [|h hosts IH]; intros s; simpl.
  - reflexivity.
  - apply IH.
Qed.

Lemma add_hosts_stops (good : list string) (bad : Json) (rest : list Json)
    (s : list string) :
  (forall x, bad <> JStr x) ->
  add_hosts ((JStr <$> good) ++ bad :: rest) s
    = (Throw (TypeError "host.startsWith is not a function"),
       foldl (fun s endpoint => set_add endpoint s) s
             (normalize_host <$> good)).
Proof.
  intros Hbad. revert s. induction good as [|h good IH]; intros s; simpl.
  - destruct bad; try reflexivity. exfalso. eapply Hbad. reflexivity.
  - apply IH.
Qed.

(** X1.  [loadRpcEndpoints] never throws, whatever the configuration and
    the hosts file hold; it writes to the console only; the list it returns
    holds no address twice and always holds the reference endpoint. *)
Theorem loadRpcEndpoints_distinct_with_reference (env : Env) (w : World) :
  exists (endpoints : list string) (w' : World),
    loadRpcEndpoints env w = (Ok endpoints, w') /\
    console_only w w' /\
    NoDup endpoints /\
    officialRpcEndpoint (config w) ∈ endpoints.
Proof.
  destruct (loadRpcEndpoints_run env w) as (w' & Hrun & Hc).
  exists (loaded_endpoints env (config w)), w'.
  split; [exact Hrun|]. split; [exact Hc|].
  split; [apply loaded_endpoints_NoDup | apply loaded_endpoints_official].
Qed.

(** X2.  With a hosts file that is a JSON array of strings, an address is in
    the list [loadRpcEndpoints] returns exactly when it is the reference
    endpoint, one of the custom endpoints (taken as they are), or a host of
    the file after [normalize_host]. *)
Theorem loadRpcEndpoints_members (env : Env) (w : World) (path : string)
    (hosts : list string) :
  rpcHostsFilePath (config w) = Some path ->
  path <> "" ->
  hostsFile env path = Parsed (JArr (JStr <$> hosts)) ->
  exists (endpoints : list string) (w' : World),
    loadRpcEndpoints env w = (Ok endpoints, w') /\
    forall y : string,
      y ∈ endpoints <->
      y = officialRpcEndpoint (config w) \/
      y ∈ default [] (customRpcEndpoints (config w)) \/
      exists h : string, h ∈ hosts /\ y = normalize_host h.
Proof.
  intros Hpath Hne Hfile.
  destruct (loadRpcEndpoints_run env w) as (w' & Hrun & _).
  exists (loaded_endpoints env (config w)), w'. split; [exact Hrun|].
  intros y. unfold loaded_endpoints.
  rewrite Hpath, decide_False by exact Hne. rewrite Hfile, add_hosts_strings.
  simpl snd. rewrite set_add_elem, foldl_set_add_elem, list_elem_of_fmap.
  assert (Hcustom :
    y ∈ match customRpcEndpoints (config w) with
        | Some custom => foldl (fun s endpoint => set_add endpoint s) [] custom
        | None => []
        end <-> y ∈ default [] (customRpcEndpoints (config w))).
  { destruct (customRpcEndpoints (config w)) as [custom|]; simpl; [|tauto].
    rewrite foldl_set_add_elem. split; [|auto].
    intros [Hin|Hin]; [inversion Hin | exact Hin]. }
  rewrite Hcustom. split.
  - intros [?|[?|(h & -> & Hh)]]; eauto.
  - intros [?|[?|(h & Hh & ->)]]; eauto.
Qed.

Lemma loadRpcEndpoints_members_witness :
  exists (endpoints : list string) (w' : World),
    loadRpcEndpoints env_live (constructor overrides_live)
      = (Ok endpoints, w') /\
    forall y : string,
      y ∈ endpoints <->
      y = officialRpcEndpoint (config (constructor overrides_live)) \/
      y ∈ default [] (customRpcEndpoints (config (constructor overrides_live))) \/
      exists h : string,
        h ∈ ["httpbin.org:8899"; "10.0.0.7:8899"] /\ y = normalize_host h.
Proof.
  apply (loadRpcEndpoints_members env_live (constructor overrides_live)
           "./rpcHosts.json" ["httpbin.org:8899"; "10.0.0.7:8899"]).
  - reflexivity.
  - discriminate.
  - reflexivity.
Defined.

(** X3.  A hosts file that is missing, cannot be read or parsed, or does not
    hold an array is absorbed: [loadRpcEndpoints] returns the custom
    endpoints, without duplicates and in their order, followed by the
    reference endpoint, as it does when no file is configured. *)
Theorem loadRpcEndpoints_absorbs_file_failure (env : Env) (w : World)
    (path : string) :
  rpcHostsFilePath (config w) = Some path ->
  hostsFile env path = NoSuchFile \/
  hostsFile env path = Unreadable \/
  (exists document, hostsFile env path = Parsed document /\
                    forall items, document <> JArr items) ->
  fst (loadRpcEndpoints env w)
    = Ok (set_add (officialRpcEndpoint (config w))
            (foldl (fun s endpoint => set_add endpoint s) []
                   (default [] (customRpcEndpoints (config w))))).
Proof.
  intros Hpath Hfile.
  destruct (loadRpcEndpoints_run env w) as (w' & -> & _). simpl.
  unfold loaded_endpoints. rewrite Hpath.
  assert (Hcustom :
    match customRpcEndpoints (config w) with
    | Some custom => foldl (fun s endpoint => set_add endpoint s) [] custom
    | None => []
    end = foldl (fun s endpoint => set_add endpoint s) []
                (default [] (customRpcEndpoints (config w)))).
  { destruct (customRpcEndpoints (config w)); reflexivity. }
  rewrite Hcustom.
  destruct (decide (path = "")); [reflexivity|].
  destruct Hfile as [-> | [-> | (document & -> & Hdoc)]]; try reflexivity.
  destruct document; try reflexivity. exfalso. eapply Hdoc. reflexivity.
Qed.

Lemma loadRpcEndpoints_absorbs_file_failure_witness :
  fst (loadRpcEndpoints env_down (constructor overrides_live))
    = Ok (set_add (officialRpcEndpoint (config (constructor overrides_live)))
            (foldl (fun s endpoint => set_add endpoint s) []
                   (default []
                      (customRpcEndpoints (config (constructor overrides_live)))))).
Proof.
  apply (loadRpcEndpoints_absorbs_file_failure env_down
           (constructor overrides_live) "./rpcHosts.json").
  - reflexivity.
  - left. reflexivity.
Defined.

(** X4.  An entry of the hosts file that is not a string stops the loading
    of the file: the hosts before it are kept (normalised), the entries after
    it are dropped, and nothing is thrown. *)
Theorem loadRpcEndpoints_stops_at_bad_entry (env : Env) (w : World)
    (path : string) (good : list string) (bad : Json) (rest : list Json) :
  rpcHostsFilePath (config w) = Some path ->
  path <> "" ->
  hostsFile env path = Parsed (JArr ((JStr <$> good) ++ bad :: rest)) ->
  (forall x, bad <> JStr x) ->
  fst (loadRpcEndpoints env w)
    = Ok (set_add (officialRpcEndpoint (config w))
            (foldl (fun s endpoint => set_add endpoint s)
               (foldl (fun s endpoint => set_add endpoint s) []
                      (default [] (customRpcEndpoints (config w))))
               (normalize_host <$> good))).
Proof.
  intros Hpath Hne Hfile Hbad.
  destruct (loadRpcEndpoints_run env w) as (w' & -> & _). simpl.
  unfold loaded_endpoints.
  rewrite Hpath, decide_False by exact Hne.
  rewrite Hfile, add_hosts_stops by exact Hbad. simpl snd.
  destruct (customRpcEndpoints (config w)); reflexivity.
Qed.

Lemma loadRpcEndpoints_stops_at_bad_entry_witness :
  fst (loadRpcEndpoints env_bad_file (constructor overrides_live))
    = Ok (set_add (officialRpcEndpoint (config (constructor overrides_live)))
            (foldl (fun s endpoint => set_add endpoint s)
               (foldl (fun s endpoint => set_add endpoint s) []
                  (default []
                     (customRpcEndpoints (config (constructor overrides_live)))))
               (normalize_host <$> ["10.0.0.7:8899"]))).
Proof.
  apply (loadRpcEndpoints_stops_at_bad_entry env_bad_file
           (constructor overrides_live) "./rpcHosts.json" ["10.0.0.7:8899"]
           (JNum 8899) [JStr "10.0.0.8:8899"]).
  - reflexivity.
  - discriminate.
  - reflexivity.
  - intros x. discriminate.
Defined.

(** ** Further properties: the life cycle *)

(** X5.  [initialize] creates one connection per endpoint of the list
    [loadRpcEndpoints] returns, in the order of the list, and stops at the
    first address the constructor of [Connection] does not accept.  When
    every address is accepted it returns normally: the default network then
    has these connections, each created with the commitment "confirmed",
    their addresses are pairwise different and include the reference
    endpoint, and the refresh timer is armed with the configured period as
    [setInterval] takes it.  Otherwise it throws the constructor's
    [TypeError] for that first address and leaves the configuration, both
    pools and the timer as they were. *)
Theorem initialize_populates_pool (env : Env) (w : World) :
  exists (endpoints : list string) (r : Res unit) (w' : World),
    fst (loadRpcEndpoints env w) = Ok endpoints /\
    initialize env w = (r, w') /\
    config w' = config w /\
    match first_rejected env endpoints with
    | None =>
        r = Ok tt /\
        addresses (all_of (defaultNetwork (config w)) w') = endpoints /\
        NoDup (addresses (all_of (defaultNetwork (config w)) w')) /\
        officialRpcEndpoint (config w)
          ∈ addresses (all_of (defaultNetwork (config w)) w') /\
        (forall c, c ∈ all_of (defaultNetwork (config w)) w' ->
                   commitment c = Some "confirmed") /\
        healthCheckInterval w'
          = Some (timer_period (healthCheckIntervalMs (config w)))
    | Some endpoint =>
        r = Throw (TypeError (rejection env endpoint)) /\
        same_pools w w' /\
        healthCheckInterval w' = healthCheckInterval w
    end.
Proof.
  destruct (loadRpcEndpoints_run env w) as (wl & Hload & _).
  pose proof (initialize_run env w) as Hrun.
  exists (loaded_endpoints env (config w)). rewrite Hload.
  destruct (first_rejected env (loaded_endpoints env (config w))) as [bad|].
  - destruct Hrun as (w' & Hrun & Hp & Ht & _).
    exists (Throw (TypeError (rejection env bad))), w'.
    split; [reflexivity|]. split; [exact Hrun|]. split; [apply Hp|]. auto.
  - destruct Hrun as (cs & w' & Hrun & Hc & Haddr & Hcm & Ha & _ & Ht).
    assert (Hall : all_of (defaultNetwork (config w)) w' = cs).
    { unfold all_of. rewrite Ha, JsMap_get_set_eq. reflexivity. }
    exists (Ok tt), w'.
    split; [reflexivity|]. split; [exact Hrun|]. split; [exact Hc|].
    rewrite Hall, Haddr.
    split; [reflexivity|]. split; [reflexivity|].
    split; [apply loaded_endpoints_NoDup|].
    split; [apply loaded_endpoints_official|].
    split; [exact Hcm | exact Ht].
Qed.

Lemma constructor_state (overrides : PartialConfig) :
  config (constructor overrides) = spread DEFAULT_CONFIG overrides /\
  allConnections (constructor overrides)
    = [(defaultNetwork (spread DEFAULT_CONFIG overrides), [])] /\
  healthyConnections (constructor overrides)
    = [(defaultNetwork (spread DEFAULT_CONFIG overrides), [])] /\
  healthCheckInterval (constructor overrides) = None /\
  objects (constructor overrides) = 0%nat /\
  random_calls (constructor overrides) = 0%nat.
Proof.
  unfold constructor, log.
  match goal with |- context [if ?b then _ else _] => destruct b end;
    repeat split; reflexivity.
Qed.

(** X6.  [createRpcManager] returns normally when the constructor of
    [Connection] accepts every endpoint of the loaded list, and the default
    network then has the connections of that list; otherwise it throws the
    constructor's [TypeError] for the first address that is not accepted,
    and both pools of the default network are empty.  Either way the
    healthy list of the default network is an order-preserving sublist of
    its configured connections (the same objects, not only the same
    addresses). *)
Theorem createRpcManager_healthy_sublist (env : Env)
    (overrides : PartialConfig) :
  exists (endpoints : list string) (r : Res unit) (w' : World),
    fst (loadRpcEndpoints env (constructor overrides)) = Ok endpoints /\
    createRpcManager env overrides = (r, w') /\
    sublist (healthy_of (defaultNetwork (config w')) w')
            (all_of (defaultNetwork (config w')) w') /\
    match first_rejected env endpoints with
    | None =>
        r = Ok tt /\
        addresses (all_of (defaultNetwork (config w')) w') = endpoints
    | Some endpoint =>
        r = Throw (TypeError (rejection env endpoint)) /\
        all_of (defaultNetwork (config w')) w' = [] /\
        healthy_of (defaultNetwork (config w')) w' = []
    end.
Proof.
  unfold createRpcManager.
  destruct (constructor_state overrides) as (Hcfg & Hall & Hhealthy & _).
  destruct (loadRpcEndpoints_run env (constructor overrides))
    as (wl & Hload & _).
  pose proof (initialize_run env (constructor overrides)) as Hrun.
  set (w0 := constructor overrides) in *.
  set (dn := defaultNetwork (spread DEFAULT_CONFIG overrides)) in *.
  exists (loaded_endpoints env (config w0)). rewrite Hload.
  destruct (first_rejected env (loaded_endpoints env (config w0))) as [bad|].
  - destruct Hrun as (w' & Hrun & (Hc & Ha & Hh) & _).
    exists (Throw (TypeError (rejection env bad))), w'.
    split; [reflexivity|]. split; [exact Hrun|].
    unfold healthy_of, all_of. rewrite Hc, Ha, Hh, Hcfg, Hall, Hhealthy.
    fold dn. simpl. rewrite !decide_True by reflexivity. simpl.
    split; [apply sublist_nil_l | auto].
  - destruct Hrun as (cs' & w' & Hrun & Hc & Haddr & _ & Ha & Hh & _).
    exists (Ok tt), w'. split; [reflexivity|]. split; [exact Hrun|].
    assert (Hall' : allConnections w' = [(dn, cs')]).
    { rewrite Ha, Hall, Hcfg. fold dn. simpl.
      rewrite decide_True by reflexivity. reflexivity. }
    assert (Hsub : exists hs, healthyConnections w' = [(dn, hs)] /\ sublist hs cs').
    { destruct Hh as [Hsame | (H & start & Href)].
      - exists []. rewrite Hsame, Hhealthy. split; [reflexivity | apply sublist_nil_l].
      - eexists. rewrite Href, Hall', Hhealthy. simpl.
        rewrite decide_True by reflexivity.
        split; [reflexivity | apply healthy_subset_sublist]. }
    destruct Hsub as (hs & Hh' & Hsub).
    unfold healthy_of, all_of. rewrite Hc, Hcfg, Hall', Hh'. fold dn. simpl.
    rewrite !decide_True by reflexivity. simpl.
    split; [exact Hsub|]. split; [reflexivity | rewrite <- Hcfg; exact Haddr].
Qed.

Lemma stopHealthCheck_clears (w : World) :
  healthCheckInterval (snd (stopHealthCheck w)) = None.
Proof.
  unfold stopHealthCheck, bind, gets, modify.
  destruct (healthCheckInterval w) eqn:Ht.
  - rewrite log_run. simpl.
    match goal with |- context [logged ?l ?m ?x] =>
      pose proof (logged_counters l m x) as (_ & _ & _ & _ & Hl)
    end.
    rewrite Hl. reflexivity.
  - simpl. exact Ht.
Qed.

(** X7.  [stopHealthCheck] is idempotent: it leaves no timer, returns
    normally, and a second call changes nothing at all (it does not even
    write a log line). *)
Theorem stopHealthCheck_idempotent (w : World) :
  healthCheckInterval (snd (stopHealthCheck w)) = None /\
  stopHealthCheck (snd (stopHealthCheck w))
    = (Ok tt, snd (stopHealthCheck w)).
Proof.
  pose proof (stopHealthCheck_clears w) as Hnone.
  split; [exact Hnone|].
  unfold stopHealthCheck at 1. unfold bind, gets. rewrite Hnone. reflexivity.
Qed.

(** X8.  [dispose] returns normally, leaves no timer and keeps the
    configuration and both pools; disposing again only writes the line
    "RPC Manager disposed" once more. *)
Theorem dispose_stops_timer_keeps_pools (w : World) :
  exists w' : World,
    dispose w = (Ok tt, w') /\
    healthCheckInterval w' = None /\
    same_pools w w' /\
    dispose w' = (Ok tt, logged 3 "RPC Manager disposed" w').
Proof.
  pose proof (stopHealthCheck_clears w) as Hnone.
  destruct (stopHealthCheck_run w) as (w1 & Hstop & Hp).
  rewrite Hstop in Hnone. simpl in Hnone.
  unfold dispose at 1. unfold bind. rewrite Hstop, log_run.
  pose proof (logged_counters 3 "RPC Manager disposed" w1)
    as (_ & _ & _ & _ & Ht).
  exists (logged 3 "RPC Manager disposed" w1).
  split; [reflexivity|].
  split; [rewrite Ht; exact Hnone|].
  split; [eapply same_pools_trans; [exact Hp | apply logged_same_pools]|].
  assert (Hnoop : stopHealthCheck (logged 3 "RPC Manager disposed" w1)
                  = (Ok tt, logged 3 "RPC Manager disposed" w1)).
  { unfold stopHealthCheck, bind, gets. cbv beta. rewrite Ht, Hnone. reflexivity. }
  unfold dispose, bind. rewrite Hnoop, log_run. reflexivity.
Qed.

(** ** Further properties: the refresh cycle *)

(** X9.  [getCurrentBlock] never throws.  When the constructor of
    [Connection] accepts the address, it creates one connection object,
    asks it for the height, and returns the height the endpoint reports, or
    [null] when the query is rejected.  When the constructor does not
    accept the address, it returns [null] whatever the endpoint would have
    answered, and no object is created.  Either way the call counts as one
    height probe, and the pools are not touched. *)
Theorem getCurrentBlock_absorbs_rejection (env : Env) (endpoint : string)
    (w : World) :
  exists w' : World,
    getCurrentBlock env endpoint w
      = (Ok (if accepts env endpoint
             then slot_reply env (slot_calls w) endpoint
             else None), w') /\
    same_pools w w' /\
    slot_calls w' = S (slot_calls w) /\
    objects w' = (if accepts env endpoint then S (objects w) else objects w).
Proof.
  destruct (getCurrentBlock_run env endpoint w) as (w' & Hrun & Hp & Hs & _).
  exists w'. split; [exact Hrun|]. split; [exact Hp|]. split; [exact Hs|].
  revert Hrun.
  unfold getCurrentBlock, next_probe, try_catch, bind, newConnection,
    getSlot_call, getSlot, ret, throw.
  simpl. destruct (accepts env endpoint); simpl.
  - destruct (slot_reply env (slot_calls w) endpoint); simpl.
    + intros [= <-]. reflexivity.
    + rewrite log_run. intros [= <-].
      match goal with |- context [logged ?l ?m ?x] =>
        pose proof (logged_counters l m x) as (_ & _ & _ & Ho & _)
      end.
      rewrite Ho. reflexivity.
  - rewrite log_run. intros [= <-].
    match goal with |- context [logged ?l ?m ?x] =>
      pose proof (logged_counters l m x) as (_ & _ & _ & Ho & _)
    end.
    rewrite Ho. reflexivity.
Qed.

(** X10.  A refresh cycle never throws, whatever the endpoints answer, and
    never changes the configuration or the configured endpoints; it consumes
    no random number and does not invoke any caller's operation. *)
Theorem refresh_never_throws (env : Env) (w : World) :
  exists w' : World,
    updateHealthyConnections env w = (Ok tt, w') /\
    config w' = config w /\
    allConnections w' = allConnections w /\
    random_calls w' = random_calls w /\
    rpc_calls w' = rpc_calls w.
Proof. apply update_returns. Qed.

(** X11.  When the reference endpoint reports a height H other than 0, the
    cycle replaces the healthy list of every network that has an entry by
    the order-preserving filter of its configured connections: a connection
    stays exactly when its own height query succeeded with a height at most
    [maxBlockDelay] below H.  The result is a sublist of the configured
    connections. *)
Theorem refresh_replaces_healthy_by_filter (env : Env) (w : World) (H : Z)
    (network : string) (cs : list Connection)
    (before after : list (string * list Connection)) :
  getSlot env (slot_calls w) (officialRpcEndpoint (config w)) = Some H ->
  H <> 0 ->
  allConnections w = before ++ (network, cs) :: after ->
  network ∉ JsMap.keys before ->
  network ∉ JsMap.keys after ->
  exists w' : World,
    updateHealthyConnections env w = (Ok tt, w') /\
    healthy_of network w' =
      healthy_subset env H (maxBlockDelay (config w))
                     (S (slot_calls w) + queries_for before) cs /\
    sublist (healthy_of network w') (all_of network w').
Proof.
  intros Hreply Hnz Hall Hb Ha.
  destruct (update_refreshes env w H Hreply Hnz)
    as (w' & Hrun & _ & Hall' & Hh & _).
  assert (Heq : healthy_of network w' =
                healthy_subset env H (maxBlockDelay (config w))
                               (S (slot_calls w) + queries_for before) cs).
  { unfold healthy_of. rewrite Hh, Hall.
    rewrite refreshed_get_present by assumption. reflexivity. }
  exists w'. split; [exact Hrun|]. split; [exact Heq|].
  rewrite Heq. unfold all_of. rewrite Hall', Hall.
  assert (Hget : JsMap.get network (before ++ (network, cs) :: after) = Some cs).
  { clear -Hb. unfold JsMap.keys in Hb.
    induction before as [|[n cs'] before IH]; simpl.
    - rewrite decide_True; reflexivity.
    - rewrite fmap_cons, not_elem_of_cons in Hb. destruct Hb as [Hne Hb].
      simpl in Hne. rewrite decide_False by congruence. apply IH, Hb. }
  rewrite Hget. apply healthy_subset_sublist.
Qed.

Lemma refresh_replaces_healthy_by_filter_witness :
  exists w' : World,
    updateHealthyConnections env_live world_two_healthy = (Ok tt, w') /\
    healthy_of mainnet w' =
      healthy_subset env_live 100 (maxBlockDelay (config world_two_healthy))
        (S (slot_calls world_two_healthy) + queries_for [])
        [mkConnection official (Some "confirmed") 0;
         mkConnection "https://a.example" (Some "confirmed") 1;
         mkConnection "https://b.example" (Some "confirmed") 2] /\
    sublist (healthy_of mainnet w') (all_of mainnet w').
Proof.
  apply (refresh_replaces_healthy_by_filter env_live world_two_healthy 100
           mainnet _ [] []).
  - reflexivity.
  - discriminate.
  - reflexivity.
  - apply not_elem_of_nil.
  - apply not_elem_of_nil.
Defined.

(** X12.  A refresh cycle keeps no memory of earlier cycles: two managers
    with the same configuration and configured endpoints, refreshed against
    the same replies, end with the same healthy list for every network that
    has an entry, whatever their healthy lists were before. *)
Theorem refresh_forgets_previous_health (env : Env) (w1 w2 : World) (H : Z)
    (network : string) (cs : list Connection)
    (before after : list (string * list Connection)) :
  config w1 = config w2 ->
  allConnections w1 = allConnections w2 ->
  slot_calls w1 = slot_calls w2 ->
  getSlot env (slot_calls w1) (officialRpcEndpoint (config w1)) = Some H ->
  H <> 0 ->
  allConnections w1 = before ++ (network, cs) :: after ->
  network ∉ JsMap.keys before ->
  network ∉ JsMap.keys after ->
  healthy_of network (snd (updateHealthyConnections env w1))
    = healthy_of network (snd (updateHealthyConnections env w2)).
Proof.
  intros Hc Ha Hs Hreply Hnz Hall Hb Hafter.
  destruct (update_refreshes env w1 H Hreply Hnz)
    as (w1' & -> & _ & _ & Hh1 & _).
  assert (Hreply2 : getSlot env (slot_calls w2) (officialRpcEndpoint (config w2))
                    = Some H) by (rewrite <- Hs, <- Hc; exact Hreply).
  destruct (update_refreshes env w2 H Hreply2 Hnz)
    as (w2' & -> & _ & _ & Hh2 & _).
  simpl. unfold healthy_of. rewrite Hh1, Hh2, <- Ha, <- Hc, <- Hs, Hall.
  rewrite !refreshed_get_present by assumption. reflexivity.
Qed.

Lemma refresh_forgets_previous_health_witness :
  healthy_of mainnet (snd (updateHealthyConnections env_live world_two_healthy))
    = healthy_of mainnet
        (snd (updateHealthyConnections env_live
                (with_healthyConnections [] world_two_healthy))).
Proof.
  apply (refresh_forgets_previous_health env_live world_two_healthy
           (with_healthyConnections [] world_two_healthy) 100 mainnet
           [mkConnection official (Some "confirmed") 0;
            mkConnection "https://a.example" (Some "confirmed") 1;
            mkConnection "https://b.example" (Some "confirmed") 2] [] []).
  - reflexivity.
  - reflexivity.
  - reflexivity.
  - reflexivity.
  - discriminate.
  - reflexivity.
  - apply not_elem_of_nil.
  - apply not_elem_of_nil.
Defined.

Lemma check_networks_queries (env : Env) (H : Z)
    (entries : list (string * list Connection)) :
  forall w : World,
    slot_calls (snd (check_networks env H entries w))
      = (slot_calls w + queries_for entries)%nat.
Proof.
  induction entries as [|[network cs] rest IH]; intros w.
  - simpl. unfold queries_for. simpl. lia.
  - destruct (check_connections_run env H cs [] w)
      as (w1 & Hrun & _ & Hs1 & _).
    cbn [check_networks]. unfold bind at 1. rewrite Hrun.
    unfold bind at 1, modify at 1. unfold bind at 1. rewrite log_run.
    rewrite IH.
    match goal with |- context [logged ?l ?m ?x] =>
      pose proof (logged_counters l m x) as (Hs2 & _)
    end.
    rewrite Hs2. simpl. rewrite Hs1. unfold queries_for.
    rewrite fmap_cons. simpl. apply eq_sym, Nat.add_assoc.
Qed.

Lemma update_refreshes_queries (env : Env) (w : World) (H : Z) :
  getSlot env (slot_calls w) (officialRpcEndpoint (config w)) = Some H ->
  H <> 0 ->
  exists w' : World,
    updateHealthyConnections env w = (Ok tt, w') /\
    slot_calls w' = (S (slot_calls w) + queries_for (allConnections w))%nat.
Proof.
  intros Hreply Hnz.
  unfold updateHealthyConnections, bind at 1. rewrite log_run.
  match goal with |- context [logged ?l ?m ?x] =>
    pose proof (logged_same_pools l m x) as (Hcfg0 & Hall0 & _);
    pose proof (logged_counters l m x) as (Hs0 & _);
    set (w0 := logged l m x) in *
  end.
  destruct (getCurrentBlock_run env (officialRpcEndpoint (config w)) w0)
    as (w1 & Hrun & (_ & Hall1 & _) & Hs1 & _).
  unfold try_catch, bind at 1, gets at 1. rewrite Hcfg0.
  unfold bind at 1. rewrite Hrun, Hs0, Hreply.
  assert (Hgo : exists w',
    (log 4 "Official block: ${officialBlock}" ;;;
     all <- gets allConnections ;; check_networks env H (JsMap.entries all)) w1
      = (Ok tt, w') /\
    slot_calls w' = (S (slot_calls w) + queries_for (allConnections w))%nat).
  { unfold bind at 1. rewrite log_run.
    match goal with |- context [logged ?l ?m ?x] =>
      pose proof (logged_same_pools l m x) as (_ & Hall2 & _);
      pose proof (logged_counters l m x) as (Hs2 & _);
      set (w2 := logged l m x) in *
    end.
    unfold bind, gets, JsMap.entries.
    pose proof (check_networks_queries env H (allConnections w2) w2) as Hq.
    destruct (check_networks_run env H (allConnections w2) w2)
      as (w' & Hrun' & _).
    rewrite Hrun' in Hq |- *. simpl in Hq.
    exists w'. split; [reflexivity|].
    rewrite Hq, Hs2, Hs1, Hs0, Hall2, Hall1, Hall0. reflexivity. }
  destruct Hgo as (w' & Hgo & Hrest).
  destruct H as [|p|p]; [congruence | |];
    rewrite Hgo; exists w'; (split; [reflexivity | exact Hrest]).
Qed.

(** X13.  A refresh cycle probes the reference endpoint once (one call of
    [getCurrentBlock]) and stops there when the probe fails or reports 0;
    otherwise it goes on to probe every configured connection of every
    network once, so the reference endpoint, being configured too, is
    probed twice.  [slot_calls] counts these probes: each of them queries
    the endpoint, unless the constructor of [Connection] rejects the
    address. *)
Theorem refresh_query_count (env : Env) (w : World) :
  slot_calls (snd (updateHealthyConnections env w)) =
    match getSlot env (slot_calls w) (officialRpcEndpoint (config w)) with
    | None | Some 0 => S (slot_calls w)
    | Some _ => (S (slot_calls w) + queries_for (allConnections w))%nat
    end.
Proof.
  destruct (getSlot env (slot_calls w) (officialRpcEndpoint (config w)))
    as [H|] eqn:Hreply.
  - destruct (decide (H = 0)) as [->|Hnz].
    + destruct (update_skips env w (or_intror Hreply)) as (w' & -> & _ & Hs & _).
      exact Hs.
    + destruct (update_refreshes_queries env w H Hreply Hnz) as (w' & -> & Hs).
      destruct H; [congruence | exact Hs | exact Hs].
  - destruct (update_skips env w (or_introl Hreply)) as (w' & -> & _ & Hs & _).
    exact Hs.
Qed.

(** ** Further properties: selection *)

Lemma logged_slot_calls (level : Z) (message : string) (w : World) :
  slot_calls (logged level message w) = slot_calls w.
Proof. apply logged_counters. Qed.

Lemma logged_rpc_calls (level : Z) (message : string) (w : World) :
  rpc_calls (logged level message w) = rpc_calls w.
Proof. apply logged_counters. Qed.

(** Selection makes no height probe and invokes no operation. *)
Lemma getConnection_counters (env : Env) (network : option string)
    (w : World) :
  slot_calls (snd (getConnection env network w)) = slot_calls w /\
  rpc_calls (snd (getConnection env network w)) = rpc_calls w.
Proof.
  unfold getConnection, bind, gets, Math_random, rpcEndpoint_of, newConnection,
    ret, throw.
  repeat case_match;
    repeat match goal with
           | Hlog : log _ _ _ = _ |- _ => rewrite log_run in Hlog
           end;
    simplify_eq; simpl;
    rewrite ?logged_slot_calls, ?logged_rpc_calls; simpl;
    rewrite ?logged_slot_calls, ?logged_rpc_calls; auto.
Qed.

(** X14.  Whatever [Math.random] returns, [getConnection] changes neither
    the configuration nor the pools, and it never returns [null] or
    [undefined]: it returns a connection, or (when the random index falls
    outside the array) throws a [TypeError]. *)
Theorem getConnection_connection_or_TypeError (env : Env)
    (network : option string) (w : World) :
  same_pools w (snd (getConnection env network w)) /\
  ((exists c : Connection, fst (getConnection env network w) = Ok (Some c)) \/
   (exists what : string,
      fst (getConnection env network w) = Throw (TypeError what))).
Proof.
  split; [apply getConnection_same_pools|].
  unfold getConnection, bind, gets, Math_random, rpcEndpoint_of, newConnection,
    ret, throw.
  repeat case_match;
    repeat match goal with
           | Hlog : log _ _ _ = _ |- _ => rewrite log_run in Hlog
           end;
    simplify_eq; simpl; eauto.
Qed.

(** X16.  Before [initialize] has run, [getConnection] goes straight to its
    last resort: on a manager that was only constructed it calls, for every
    network name, the constructor of [Connection] on the configured
    reference address, and returns the new connection when the constructor
    accepts the address, and throws the constructor's [TypeError] when it
    does not.  It draws no random number. *)
Theorem getConnection_before_initialize (env : Env) (overrides : PartialConfig)
    (network : option string) :
  fst (getConnection env network (constructor overrides))
    = (if accepts env (officialRpcEndpoint (spread DEFAULT_CONFIG overrides))
       then Ok (Some (mkConnection
                        (officialRpcEndpoint (spread DEFAULT_CONFIG overrides))
                        None 0))
       else Throw (TypeError
                     (rejection env
                        (officialRpcEndpoint (spread DEFAULT_CONFIG overrides))))) /\
  random_calls (snd (getConnection env network (constructor overrides)))
    = 0%nat.
Proof.
  destruct (constructor_state overrides)
    as (Hcfg & Hall & Hhealthy & _ & Hobj & Hrand).
  assert (Hh : healthy_of (default (defaultNetwork (config (constructor overrides)))
                             network) (constructor overrides) = []).
  { unfold healthy_of. rewrite Hhealthy. simpl. case_decide; reflexivity. }
  assert (Ha : all_of (default (defaultNetwork (config (constructor overrides)))
                         network) (constructor overrides) = []).
  { unfold all_of. rewrite Hall. simpl. case_decide; reflexivity. }
  destruct (getConnection_tier3 env network (constructor overrides) Hh Ha)
    as (w' & Hrun & _ & _ & _ & Hr & _).
  rewrite Hrun. simpl. rewrite Hr, Hcfg, Hobj, Hrand. split; reflexivity.
Qed.

(** ** Further properties: the retrying executor *)

Lemma retry_loop_counters_run (env : Env) {T : Type}
    (rpcMethod : nat -> Connection -> Settled T) (network : string)
    (maxRetries timeoutMs : Z) (fuel : nat) :
  forall (attempt : Z) (lastError : option Error) (w : World),
    exists (r : Res T) (w' : World),
      retry_loop env rpcMethod fuel network maxRetries timeoutMs
                 attempt lastError w = (r, w') /\
      slot_calls w' = slot_calls w /\
      (rpc_calls w' <= rpc_calls w + Z.to_nat (maxRetries - attempt))%nat.
Proof.
  induction fuel as [|fuel IH]; intros attempt lastError w; cbn [retry_loop];
    destruct (Z.ltb_spec attempt maxRetries) as [Hlt|Hge].
  - eexists _, _. split; [reflexivity|]. split; [reflexivity | lia].
  - unfold bind, throw. rewrite log_run.
    eexists _, _. split; [reflexivity|].
    rewrite logged_slot_calls, logged_rpc_calls. split; [reflexivity | lia].
  - pose proof (getConnection_counters env (Some network) w) as [Hs Hk].
    unfold bind at 1.
    destruct (getConnection env (Some network) w) as [[[c|]|e|] w0];
      simpl in Hs, Hk;
      try (eexists _, _; split; [reflexivity|]; split; [exact Hs | lia]).
    unfold bind at 1, race at 1.
    destruct (rpcMethod (rpc_calls w0) c) as [result|[message|text|what]|].
    + eexists _, _. split; [reflexivity|]. simpl. split; [exact Hs | lia].
    + unfold bind, to_Error, ret. rewrite log_run.
      match goal with |- context [retry_loop _ _ _ _ _ _ ?a ?l ?x] =>
        destruct (IH a l x) as (r & w' & Hrun & Hs' & Hk')
      end.
      rewrite logged_slot_calls, logged_rpc_calls in *. simpl in Hs', Hk'.
      exists r, w'. split; [exact Hrun|]. split; [congruence | lia].
    + unfold bind, to_Error, ret. rewrite log_run.
      match goal with |- context [retry_loop _ _ _ _ _ _ ?a ?l ?x] =>
        destruct (IH a l x) as (r & w' & Hrun & Hs' & Hk')
      end.
      rewrite logged_slot_calls, logged_rpc_calls in *. simpl in Hs', Hk'.
      exists r, w'. split; [exact Hrun|]. split; [congruence | lia].
    + eexists _, _. split; [reflexivity|]. simpl. split; [exact Hs | lia].
    + unfold bind. rewrite log_run.
      match goal with |- context [retry_loop _ _ _ _ _ _ ?a ?l ?x] =>
        destruct (IH a l x) as (r & w' & Hrun & Hs' & Hk')
      end.
      rewrite logged_slot_calls, logged_rpc_calls in *. simpl in Hs', Hk'.
      exists r, w'. split; [exact Hrun|]. split; [congruence | lia].
  - unfold bind, throw. rewrite log_run.
    eexists _, _. split; [reflexivity|].
    rewrite logged_slot_calls, logged_rpc_calls. split; [reflexivity | lia].
Qed.

Lemma retry_loop_counters (env : Env) {T : Type}
    (rpcMethod : nat -> Connection -> Settled T) (network : string)
    (maxRetries timeoutMs : Z) (fuel : nat)
    (attempt : Z) (lastError : option Error) (w : World) :
  slot_calls (snd (retry_loop env rpcMethod fuel network maxRetries timeoutMs
                              attempt lastError w)) = slot_calls w /\
  (rpc_calls (snd (retry_loop env rpcMethod fuel network maxRetries timeoutMs
                              attempt lastError w))
   <= rpc_calls w + Z.to_nat (maxRetries - attempt))%nat.
Proof.
  destruct (retry_loop_counters_run env rpcMethod network maxRetries timeoutMs
              fuel attempt lastError w) as (r & w' & -> & Hs & Hk).
  split; assumption.
Qed.

(** X17.  Whatever the operation does (succeed, reject, time out) and
    whatever endpoint is selected, one call of [executeWithRetry] invokes the
    operation at most [maxRetries] times, and not at all when [maxRetries]
    is zero or negative. *)
Theorem executeWithRetry_bounded_attempts (env : Env) (T : Type)
    (rpcMethod : nat -> Connection -> Settled T) (options : RetryOptions)
    (w : World) :
  (rpc_calls (snd (executeWithRetry env rpcMethod options w))
   <= rpc_calls w
      + Z.to_nat (default (defaultMaxRetries (config w)) (o_maxRetries options)))%nat.
Proof.
  rewrite executeWithRetry_unfold. cbv zeta.
  match goal with |- context [retry_loop env rpcMethod ?f ?n ?m ?t ?a ?l ?x] =>
    destruct (retry_loop_counters env rpcMethod n m t f a l x) as [_ Hk]
  end.
  rewrite Z.sub_0_r in Hk.
  assert (Hk1 : rpc_calls (if default false (o_forceHealthCheck options)
                           then snd (updateHealthyConnections env w) else w)
                = rpc_calls w).
  { destruct (default false (o_forceHealthCheck options)); [|reflexivity].
    destruct (update_returns env w) as (w2 & -> & _ & _ & _ & Hk2). exact Hk2. }
  rewrite Hk1 in Hk. exact Hk.
Qed.

(** X18.  The retry loop itself never queries a height and never changes
    the configuration or the pools: after [executeWithRetry] they are what
    the optional refresh cycle before the first attempt left (what they were
    before the call when [forceHealthCheck] is not set), whether the call
    returns or throws. *)
Theorem executeWithRetry_refreshes_only_up_front (env : Env) (T : Type)
    (rpcMethod : nat -> Connection -> Settled T) (options : RetryOptions)
    (w : World) :
  same_pools
    (if default false (o_forceHealthCheck options)
     then snd (updateHealthyConnections env w) else w)
    (snd (executeWithRetry env rpcMethod options w)) /\
  slot_calls (snd (executeWithRetry env rpcMethod options w))
    = slot_calls (if default false (o_forceHealthCheck options)
                  then snd (updateHealthyConnections env w) else w).
Proof.
  rewrite executeWithRetry_unfold. cbv zeta.
  split; [apply retry_loop_same_pools | apply retry_loop_counters].
Qed.

(** X20.  A rejection value that has no string conversion ends the call:
    when the first k invocations fail with an [Error], a value that
    converts to a string or a timeout, and invocation k + 1, within
    [maxRetries], is rejected with such a value, the conversion
    [String(error)] in the [catch] block throws, and [executeWithRetry]
    throws that [TypeError] after exactly k + 1 invocations, however many
    retries are left. *)
Theorem executeWithRetry_stops_at_unprintable_rejection (env : Env) (T : Type)
    (rpcMethod : nat -> Connection -> Settled T) (options : RetryOptions)
    (w : World) (k : nat) (what : string) :
  random_contract env ->
  Z.of_nat k < default (defaultMaxRetries (config w)) (o_maxRetries options) ->
  selectable env (default (defaultNetwork (config w)) (o_network options))
             (attempts_start env options w) ->
  (forall j c,
     (j < k)%nat ->
     candidate (default (defaultNetwork (config w)) (o_network options))
               (attempts_start env options w) c ->
     is_failure (rpcMethod (rpc_calls w + j)%nat c)) ->
  (forall c,
     candidate (default (defaultNetwork (config w)) (o_network options))
               (attempts_start env options w) c ->
     rpcMethod (rpc_calls w + k)%nat c = Rejected (ReasonNoString what)) ->
  exists w' : World,
    executeWithRetry env rpcMethod options w = (Throw (TypeError what), w') /\
    rpc_calls w' = (rpc_calls w + k + 1)%nat.
Proof.
  intros Hrandom Hlt Hsel Hfail Hbad.
  rewrite executeWithRetry_start.
  set (n := default (defaultMaxRetries (config w)) (o_maxRetries options)) in *.
  destruct (attempts_start_counters env options w) as (Hk1 & _).
  destruct (retry_loop_first_ending env Hrandom rpcMethod
              (default (defaultNetwork (config w)) (o_network options)) n
              (default (defaultTimeoutMs (config w)) (o_timeoutMs options))
              (Throw (TypeError what)) k (Z.to_nat n) 0 None
              (attempts_start env options w))
    as (w' & Hrun & _ & Hk).
  { lia. }
  { rewrite Z.sub_0_r. lia. }
  { exact Hsel. }
  { intros j c Hj Hc. rewrite Hk1. apply Hfail; assumption. }
  { intros c Hc. rewrite Hk1, (Hbad c Hc). reflexivity. }
  exists w'. split; [exact Hrun | congruence].
Qed.

Lemma executeWithRetry_stops_at_unprintable_rejection_witness :
  exists w' : World,
    executeWithRetry env_live fails_once_unprintable three_retries
                     world_two_healthy
      = (Throw (TypeError "Cannot convert object to primitive value"), w') /\
    rpc_calls w' = (rpc_calls world_two_healthy + 0 + 1)%nat.
Proof.
  apply (executeWithRetry_stops_at_unprintable_rejection env_live Z
           fails_once_unprintable three_retries world_two_healthy 0).
  - exact env_live_random_contract.
  - reflexivity.
  - left. vm_compute. discriminate.
  - intros j c Hj _. lia.
  - intros c _. reflexivity.
Defined.

(** X21.  With a positive [maxRetries], when the attempts start in a state
    where the network has no healthy and no configured endpoint and the
    constructor of [Connection] does not accept the reference address,
    [executeWithRetry] throws the constructor's [TypeError] from its first
    [getConnection], which is outside the [try]: the operation is not
    invoked and no retry is made. *)
Theorem executeWithRetry_throws_without_endpoint (env : Env) (T : Type)
    (rpcMethod : nat -> Connection -> Settled T) (options : RetryOptions)
    (w : World) :
  0 < default (defaultMaxRetries (config w)) (o_maxRetries options) ->
  healthy_of (default (defaultNetwork (config w)) (o_network options))
             (attempts_start env options w) = [] ->
  all_of (default (defaultNetwork (config w)) (o_network options))
         (attempts_start env options w) = [] ->
  accepts env (officialRpcEndpoint (config w)) = false ->
  exists w' : World,
    executeWithRetry env rpcMethod options w
      = (Throw (TypeError (rejection env (officialRpcEndpoint (config w)))),
         w') /\
    rpc_calls w' = rpc_calls w.
Proof.
  intros Hpos Hh Ha Hacc.
  rewrite executeWithRetry_start.
  set (n := default (defaultMaxRetries (config w)) (o_maxRetries options)) in *.
  destruct (attempts_start_counters env options w) as (Hk1 & _).
  assert (Hcfg : config (attempts_start env options w) = config w).
  { unfold attempts_start.
    destruct (default false (o_forceHealthCheck options)); [|reflexivity].
    destruct (update_returns env w) as (w1 & -> & Hc & _). exact Hc. }
  destruct (Z.to_nat n) as [|fuel] eqn:Hn; [lia|].
  destruct (retry_loop_stuck env rpcMethod fuel
              (default (defaultNetwork (config w)) (o_network options)) n
              (default (defaultTimeoutMs (config w)) (o_timeoutMs options))
              0 None (attempts_start env options w))
    as (w' & Hrun & _ & Hk); try assumption.
  { rewrite Hcfg. exact Hacc. }
  rewrite Hcfg in Hrun.
  exists w'. split; [exact Hrun | congruence].
Qed.

Lemma executeWithRetry_throws_without_endpoint_witness :
  exists w' : World,
    executeWithRetry env_live always_times_out three_retries
                     (constructor overrides_no_scheme)
      = (Throw (TypeError
                  (rejection env_live
                     (officialRpcEndpoint (config (constructor overrides_no_scheme))))),
         w') /\
    rpc_calls w' = rpc_calls (constructor overrides_no_scheme).
Proof.
  apply (executeWithRetry_throws_without_endpoint env_live Z always_times_out
           three_retries (constructor overrides_no_scheme)).
  - reflexivity.
  - reflexivity.
  - reflexivity.
  - reflexivity.
Defined.


(** ** Further properties: statistics *)

Lemma pool_invariant_all_distinct (env : Env) (w : World) :
  pool_invariant env w ->
  NoDup (addresses (all_of (defaultNetwork (config w)) w)).
Proof.
  intros (cs & hs & Hall & _ & _ & Hloaded).
  unfold all_of. rewrite Hall. simpl. rewrite decide_True by reflexivity. simpl.
  destruct Hloaded as [-> | ->]; [constructor | apply loaded_endpoints_NoDup].
Qed.

(** One call keeps the healthy addresses distinct: the healthy map is left
    alone, or its entry becomes a filter of the configured connections. *)
Lemma healthy_distinct_step (env : Env) (w w' : World) :
  pool_invariant env w' ->
  config w' = config w ->
  healthy_distinct w ->
  (healthyConnections w' = healthyConnections w \/
   exists (H : Z) (start : nat),
     healthyConnections w' =
       refreshed env H (maxBlockDelay (config w)) start
                 (allConnections w') (healthyConnections w)) ->
  healthy_distinct w'.
Proof.
  intros Hinv Hc Hd Hh. unfold healthy_distinct in *.
  pose proof (pool_invariant_all_distinct env w' Hinv) as Hall.
  destruct Hinv as (cs & hs & Ha & Hhs & _ & _).
  destruct Hh as [Hsame | (H & start & Href)].
  - unfold healthy_of in *. rewrite Hsame, Hc. exact Hd.
  - unfold all_of in Hall. rewrite Ha in Hall, Href. simpl in Hall.
    rewrite decide_True in Hall by reflexivity. simpl in Hall.
    unfold healthy_of. rewrite Href. simpl.
    rewrite JsMap_get_set_eq. simpl.
    eapply sublist_NoDup; [exact Hall|].
    unfold addresses. apply fmap_sublist, healthy_subset_sublist.
Qed.

Lemma reachable_healthy_distinct (env : Env) (w : World) :
  reachable env w -> healthy_distinct w.
Proof.
  induction 1 as [overrides | call w Hreach IH].
  - destruct (constructor_state overrides) as (Hcfg & _ & Hh & _).
    unfold healthy_distinct, healthy_of. rewrite Hh, Hcfg. simpl.
    rewrite decide_True by reflexivity. constructor.
  - pose proof (reachable_pool_invariant env _ (reachable_call env call w Hreach))
      as Hinv'.
    destruct call as [| |network|T rpcMethod options| |]; simpl in *.
    + pose proof (initialize_run env w) as Hrun.
      destruct (first_rejected env (loaded_endpoints env (config w))) as [bad|].
      * destruct Hrun as (w' & Hrun & (Hc & _ & Hh) & _).
        rewrite Hrun in *. simpl in *.
        eapply healthy_distinct_step; eauto.
      * destruct Hrun as (cs & w' & Hrun & Hc & _ & _ & _ & Hh & _).
        rewrite Hrun in *. simpl in *.
        eapply healthy_distinct_step; eauto.
    + destruct (update_pools env w) as (w' & Hrun & Hc & Ha & Hh).
      rewrite Hrun in *. simpl in *.
      eapply healthy_distinct_step; eauto.
      destruct Hh as [?|(H & start & Hh)]; [auto|]. right. exists H, start.
      rewrite Ha. exact Hh.
    + destruct (getConnection_same_pools env network w) as (Hc & _ & Hh).
      eapply healthy_distinct_step; eauto.
    + destruct (executeWithRetry_pools env rpcMethod options w) as (Hc & Ha & Hh).
      eapply healthy_distinct_step; eauto.
      destruct Hh as [?|(H & start & Hh)]; [auto|]. right. exists H, start.
      rewrite Ha. exact Hh.
    + destruct (stopHealthCheck_run w) as (w' & Hrun & Hc & _ & Hh).
      rewrite Hrun in *. simpl in *.
      eapply healthy_distinct_step; eauto.
    + destruct (dispose_run w) as (w' & Hrun & Hc & _ & Hh).
      rewrite Hrun in *. simpl in *.
      eapply healthy_distinct_step; eauto.
Qed.

(** X19.  In every state a manager goes through, provided the default
    network is not named [__proto__], [getStats] reports exactly one
    network, the default one: its number of configured connections, its
    number of healthy connections and the addresses of the healthy ones.
    The healthy count never exceeds the total, the reported addresses are
    pairwise different and as many as the healthy count, and the manager is
    left unchanged. *)
Theorem getStats_reports_default_network (env : Env) (w : World) :
  reachable env w ->
  defaultNetwork (config w) <> "__proto__" ->
  exists stats : Stats,
    getStats w = (Ok stats, w) /\
    totalConnections stats
      = [(defaultNetwork (config w),
          length (all_of (defaultNetwork (config w)) w))] /\
    healthyCounts stats
      = [(defaultNetwork (config w),
          length (healthy_of (defaultNetwork (config w)) w))] /\
    healthyEndpoints stats
      = [(defaultNetwork (config w),
          addresses (healthy_of (defaultNetwork (config w)) w))] /\
    (length (healthy_of (defaultNetwork (config w)) w)
     <= length (all_of (defaultNetwork (config w)) w))%nat /\
    NoDup (addresses (healthy_of (defaultNetwork (config w)) w)) /\
    length (addresses (healthy_of (defaultNetwork (config w)) w))
      = length (healthy_of (defaultNetwork (config w)) w).
Proof.
  intros Hreach Hname.
  pose proof (reachable_healthy_distinct env w Hreach) as Hd.
  destruct (reachable_pool_invariant env w Hreach)
    as (cs & hs & Hall & Hhealthy & Hsub & _).
  unfold healthy_distinct in Hd. unfold healthy_of, all_of in *.
  rewrite Hall, Hhealthy in *. simpl in Hd |- *.
  rewrite decide_True in Hd by reflexivity. simpl in Hd.
  exists (mkStats [(defaultNetwork (config w), length cs)]
                  [(defaultNetwork (config w), length hs)]
                  [(defaultNetwork (config w), addresses hs)]).
  split.
  { unfold getStats, bind, gets, ret. rewrite Hall, Hhealthy. simpl.
    unfold obj_set. repeat case_decide; try contradiction; reflexivity. }
  simpl. rewrite !decide_True by reflexivity. simpl.
  split; [reflexivity|]. split; [reflexivity|]. split; [reflexivity|].
  split; [|split; [exact Hd | apply length_fmap]].
  rewrite <- (length_fmap rpcEndpoint hs), <- (length_fmap rpcEndpoint cs).
  apply submseteq_length, NoDup_submseteq; [exact Hd | exact Hsub].
Qed.

Lemma getStats_reports_default_network_witness :
  exists stats : Stats,
    getStats (run_call env_live CallInitialize (constructor overrides_custom))
      = (Ok stats,
         run_call env_live CallInitialize (constructor overrides_custom)) /\
    totalConnections stats
      = [(defaultNetwork (config (run_call env_live CallInitialize
                                    (constructor overrides_custom))),
          length (all_of (defaultNetwork (config (run_call env_live CallInitialize
                                                    (constructor overrides_custom))))
                    (run_call env_live CallInitialize
                       (constructor overrides_custom))))] /\
    healthyCounts stats
      = [(defaultNetwork (config (run_call env_live CallInitialize
                                    (constructor overrides_custom))),
          length (healthy_of (defaultNetwork (config (run_call env_live CallInitialize
                                                        (constructor overrides_custom))))
                    (run_call env_live CallInitialize
                       (constructor overrides_custom))))] /\
    healthyEndpoints stats
      = [(defaultNetwork (config (run_call env_live CallInitialize
                                    (constructor overrides_custom))),
          addresses (healthy_of (defaultNetwork (config (run_call env_live CallInitialize
                                                           (constructor overrides_custom))))
                       (run_call env_live CallInitialize
                          (constructor overrides_custom))))] /\
    (length (healthy_of (defaultNetwork (config (run_call env_live CallInitialize
                                                   (constructor overrides_custom))))
               (run_call env_live CallInitialize (constructor overrides_custom)))
     <= length (all_of (defaultNetwork (config (run_call env_live CallInitialize
                                                  (constructor overrides_custom))))
                  (run_call env_live CallInitialize
                     (constructor overrides_custom))))%nat /\
    NoDup (addresses (healthy_of (defaultNetwork (config (run_call env_live CallInitialize
                                                            (constructor overrides_custom))))
                        (run_call env_live CallInitialize
                           (constructor overrides_custom)))) /\
    length (addresses (healthy_of (defaultNetwork (config (run_call env_live CallInitialize
                                                             (constructor overrides_custom))))
                         (run_call env_live CallInitialize
                            (constructor overrides_custom))))
      = length (healthy_of (defaultNetwork (config (run_call env_live CallInitialize
                                                      (constructor overrides_custom))))
                  (run_call env_live CallInitialize (constructor overrides_custom))).
Proof.
  apply (getStats_reports_default_network env_live
           (run_call env_live CallInitialize (constructor overrides_custom))).
  - apply reachable_call, reachable_new.
  - vm_compute. discriminate.
Defined.
